(** * PS/2 host controller (glasgow/applet/interface/ps2_host)

    A cycle-accurate shallow embedding of the two gateware modules of
    [ps2_host/__init__.py], [PS2Bus] and [PS2HostSubtarget], followed by
    the properties of the design that the specification states.

    One call of [step] is one rising edge of the system clock: every
    register takes the value computed from the registers and inputs of
    the cycle that ends.  Single-bit signals are [bool]; wider signals
    are [Z] with the truncation to the signal's width written out. *)

From Stdlib Require Import ZArith Bool List Lia.
Import ListNotations.
Local Open Scope Z_scope.

(** ** Bit vectors *)

(** Assignment to a signal of [w] bits keeps the low [w] bits. *)
Definition trunc (w x : Z) : Z := x mod 2 ^ w.

(** [x[lo:hi]], a Python slice of a signal: bits [lo] .. [hi-1]. *)
Definition slice (x lo hi : Z) : Z := trunc (hi - lo) (Z.shiftr x lo).

(** [~x] on a signal of [w] bits. *)
Definition inv (w x : Z) : Z := trunc w (Z.lnot x).

(** [Cat(...)]: concatenation, first operand in the low bits.  Each
    operand comes with its width. *)
Fixpoint Cat (l : list (Z * Z)) : Z :=
  match l with
  | [] => 0
  | (w, v) :: t => Z.lor (trunc w v) (Z.shiftl (Cat t) w)
  end.

(** Iterating over a signal of [w] bits yields [x[0]], [x[1]], ... *)
Definition iter_bits (w : nat) (x : Z) : list Z :=
  map (fun k => slice x (Z.of_nat k) (Z.of_nat k + 1)) (seq 0 w).

(** [functools.reduce] without initial value, on a sequence that is
    not empty (the sequences reduced here have eight elements). *)
Definition reduce (f : Z -> Z -> Z) (l : list Z) : Z :=
  match l with
  | [] => 0
  | x :: t => fold_left f t x
  end.

(** [migen.fhdl.bitcontainer.bits_for] on a natural number. *)
Definition bits_for (n : Z) : Z := Z.log2 n + 1.

(** ** The frame record and its codec *)

(** [frame_layout]: start (1), data (8), parity (1), stop (1). *)
Record frame : Type := Frame {
  start  : Z;
  data   : Z;
  parity : Z;
  stop   : Z
}.

Definition raw_bits (f : frame) : Z :=
  Cat [(1, start f); (8, data f); (1, parity f); (1, stop f)].

(** Assignment to [frame.raw_bits()]: the value is spread over the
    fields, missing high bits read as zero. *)
Definition set_raw_bits (v : Z) : frame :=
  {| start  := slice v 0 1;
     data   := slice v 1 9;
     parity := slice v 9 10;
     stop   := slice v 10 11 |}.

Definition wf_frame (f : frame) : Prop :=
  0 <= start f < 2 /\ 0 <= data f < 256 /\
  0 <= parity f < 2 /\ 0 <= stop f < 2.

Definition check_frame (f : frame) : bool :=
  (start f =? 0) &&
  (parity f =? inv 1 (reduce Z.lxor (iter_bits 8 (data f)))) &&
  (stop f =? 1).

(** The four [NextValue]s of [prepare_frame] overwrite every field, so
    the frame they leave does not depend on the one before. *)
Definition prepare_frame (d : Z) : frame :=
  {| start  := 0;
     data   := trunc 8 d;
     parity := inv 1 (reduce Z.lxor (iter_bits 8 d));
     stop   := 1 |}.

(** ** Registers *)

Module Rx.
Inductive fsm : Type := IDLE | BIT | FRAME | IDLE_WAIT.
Definition eqb (a b : fsm) : bool :=
  match a, b with
  | IDLE, IDLE | BIT, BIT | FRAME, FRAME | IDLE_WAIT, IDLE_WAIT => true
  | _, _ => false
  end.
End Rx.

Module Tx.
Inductive fsm : Type := IDLE | REQUEST | BIT | ACK | IDLE_WAIT.
Definition eqb (a b : fsm) : bool :=
  match a, b with
  | IDLE, IDLE | REQUEST, REQUEST | BIT, BIT | ACK, ACK
  | IDLE_WAIT, IDLE_WAIT => true
  | _, _ => false
  end.
End Tx.

(** [PS2Bus].  [clock_m] and [data_m] are the first stages of the two
    [MultiReg] synchronisers (two stages, reset to 1); their second
    stages are [clock_i] and [data_i]. *)
Record PS2Bus : Type := Bus {
  clock_m : bool;
  clock_i : bool;
  data_m  : bool;
  data_i  : bool;
  clock_s : bool;
  clock_r : bool;
  sample  : bool;
  setup   : bool;
  clock_o : bool;
  data_o  : bool
}.

(** [PS2HostSubtarget]. *)
Record state : Type := State {
  bus      : PS2Bus;
  rx_state : Rx.fsm;
  rx_frame : frame;
  rx_bitno : Z;
  tx_state : Tx.fsm;
  tx_timer : Z;
  tx_frame : frame;
  tx_bitno : Z
}.

(** What the environment presents in a cycle: the two pads and the
    status and data outputs of the two FIFOs. *)
Record inputs : Type := Inputs {
  pads_clock_i     : bool;
  pads_data_i      : bool;
  in_fifo_writable : bool;
  out_fifo_readable : bool;
  out_fifo_dout    : Z
}.

(** The combinational strobes towards the FIFOs; all default to 0. *)
Record strobes : Type := Strobes {
  in_fifo_din : Z;
  in_fifo_we  : bool;
  out_fifo_re : bool
}.

Definition reset_frame : frame := Frame 0 0 0 0.

Definition reset : state :=
  {| bus := {| clock_m := true; clock_i := true;
               data_m := true; data_i := true;
               clock_s := true; clock_r := true;
               sample := false; setup := false;
               clock_o := true; data_o := true |};
     rx_state := Rx.IDLE; rx_frame := reset_frame; rx_bitno := 0;
     tx_state := Tx.IDLE; tx_timer := 0;
     tx_frame := reset_frame; tx_bitno := 0 |}.

(** ** Statements of an FSM state

    The statements of an [act] are read in order against the registers
    of the current cycle and write into the pending next values and
    the strobes; a later write to the same target wins. *)

Definition pending : Type := (state * strobes)%type.
Definition stmt : Type := pending -> pending.

Definition then_ (a b : stmt) : stmt := fun p => b (a p).
Definition If (c : bool) (a : stmt) : stmt := fun p => if c then a p else p.
Definition IfElse (c : bool) (a b : stmt) : stmt :=
  fun p => if c then a p else b p.

Declare Scope stmt_scope.
Delimit Scope stmt_scope with stmt.
Notation "a ;; b" := (then_ a b)
  (at level 61, right associativity) : stmt_scope.

Definition on_state (f : state -> state) : stmt :=
  fun p => (f (fst p), snd p).
Definition on_strobes (f : strobes -> strobes) : stmt :=
  fun p => (fst p, f (snd p)).

Definition with_bus (f : PS2Bus -> PS2Bus) (n : state) : state :=
  State (f (bus n)) (rx_state n) (rx_frame n) (rx_bitno n)
        (tx_state n) (tx_timer n) (tx_frame n) (tx_bitno n).

Definition Next_clock_o (v : bool) : stmt :=
  on_state (with_bus (fun b =>
    Bus (clock_m b) (clock_i b) (data_m b) (data_i b) (clock_s b)
        (clock_r b) (sample b) (setup b) v (data_o b))).
Definition Next_data_o (v : bool) : stmt :=
  on_state (with_bus (fun b =>
    Bus (clock_m b) (clock_i b) (data_m b) (data_i b) (clock_s b)
        (clock_r b) (sample b) (setup b) (clock_o b) v)).

Definition Next_rx_state (v : Rx.fsm) : stmt :=
  on_state (fun n => State (bus n) v (rx_frame n) (rx_bitno n)
                           (tx_state n) (tx_timer n) (tx_frame n) (tx_bitno n)).
Definition Next_rx_frame (v : frame) : stmt :=
  on_state (fun n => State (bus n) (rx_state n) v (rx_bitno n)
                           (tx_state n) (tx_timer n) (tx_frame n) (tx_bitno n)).
Definition Next_rx_bitno (v : Z) : stmt :=
  on_state (fun n => State (bus n) (rx_state n) (rx_frame n) v
                           (tx_state n) (tx_timer n) (tx_frame n) (tx_bitno n)).
Definition Next_tx_state (v : Tx.fsm) : stmt :=
  on_state (fun n => State (bus n) (rx_state n) (rx_frame n) (rx_bitno n)
                           v (tx_timer n) (tx_frame n) (tx_bitno n)).
Definition Next_tx_timer (v : Z) : stmt :=
  on_state (fun n => State (bus n) (rx_state n) (rx_frame n) (rx_bitno n)
                           (tx_state n) v (tx_frame n) (tx_bitno n)).
Definition Next_tx_frame (v : frame) : stmt :=
  on_state (fun n => State (bus n) (rx_state n) (rx_frame n) (rx_bitno n)
                           (tx_state n) (tx_timer n) v (tx_bitno n)).
Definition Next_tx_bitno (v : Z) : stmt :=
  on_state (fun n => State (bus n) (rx_state n) (rx_frame n) (rx_bitno n)
                           (tx_state n) (tx_timer n) (tx_frame n) v).

Definition in_fifo_write (d : Z) : stmt :=
  on_strobes (fun c => Strobes d true (out_fifo_re c)).
Definition out_fifo_read : stmt :=
  on_strobes (fun c => Strobes (in_fifo_din c) (in_fifo_we c) true).

(** Widths of the counters: [Signal(max=11)] and
    [Signal(max=request_cyc)]. *)
Definition bitno_w : Z := bits_for 10.
Definition timer_w (request_cyc : Z) : Z := bits_for (request_cyc - 1).

Section Subtarget.

Variable request_cyc : Z.

(** *** [PS2Bus]: the synchronous block and the two synchronisers *)
Definition bus_sync (b : PS2Bus) (i : inputs) : PS2Bus :=
  {| clock_m := pads_clock_i i;
     clock_i := clock_m b;
     data_m  := pads_data_i i;
     data_i  := data_m b;
     clock_s := clock_i b;
     clock_r := clock_s b;
     sample  := clock_r b && negb (clock_s b);
     setup   := negb (clock_r b) && clock_s b;
     clock_o := clock_o b;
     data_o  := data_o b |}.

(** *** [rx_fsm] *)
Definition rx_fsm (s : state) (i : inputs) : stmt :=
  let b := bus s in
  match rx_state s with
  | Rx.IDLE =>
      If (Tx.eqb (tx_state s) Tx.IDLE && negb (clock_i b))
         (Next_rx_state Rx.BIT)
  | Rx.BIT =>
      If (sample b)
         (Next_rx_frame
            (set_raw_bits (Cat [(10, slice (raw_bits (rx_frame s)) 1 11);
                                (1, Z.b2z (data_i b))])) ;;
          Next_rx_bitno (trunc bitno_w (rx_bitno s + 1)) ;;
          If (rx_bitno s =? 10)
             (Next_rx_bitno 0 ;;
              Next_rx_state Rx.FRAME))
  | Rx.FRAME =>
      IfElse (check_frame (rx_frame s))
         (If (in_fifo_writable i)
             (in_fifo_write (data (rx_frame s)) ;;
              Next_rx_state Rx.IDLE_WAIT))
         (Next_rx_state Rx.IDLE_WAIT)
  | Rx.IDLE_WAIT =>
      If (clock_i b)
         (Next_rx_state Rx.IDLE)
  end%stmt.

(** *** [tx_fsm] *)
Definition tx_fsm (s : state) (i : inputs) : stmt :=
  let b := bus s in
  match tx_state s with
  | Tx.IDLE =>
      If (Rx.eqb (rx_state s) Rx.IDLE && clock_i b)
         (If (out_fifo_readable i)
             (Next_clock_o false ;;
              Next_tx_timer (trunc (timer_w request_cyc) (request_cyc - 1)) ;;
              Next_tx_state Tx.REQUEST))
  | Tx.REQUEST =>
      Next_tx_timer (trunc (timer_w request_cyc) (tx_timer s - 1)) ;;
      If (tx_timer s =? 0)
         (Next_clock_o true ;;
          Next_data_o false ;;
          Next_tx_frame (prepare_frame (out_fifo_dout i)) ;;
          Next_tx_state Tx.BIT)
  | Tx.BIT =>
      If (setup b)
         (Next_data_o (Z.odd (slice (raw_bits (tx_frame s)) 0 1)) ;;
          Next_tx_frame (set_raw_bits (slice (raw_bits (tx_frame s)) 1 11)) ;;
          Next_tx_bitno (trunc bitno_w (tx_bitno s + 1)) ;;
          If (tx_bitno s =? 10)
             (Next_tx_bitno 0 ;;
              Next_tx_state Tx.ACK))
  | Tx.ACK =>
      If (sample b)
         (If (negb (data_i b))
             out_fifo_read ;;
          Next_tx_state Tx.IDLE_WAIT)
  | Tx.IDLE_WAIT =>
      If (clock_i b)
         (Next_tx_state Tx.IDLE)
  end%stmt.

(** *** One clock cycle *)

(** Registers written by no statement: the bus registers follow
    their synchronous block, the others hold. *)
Definition hold (s : state) (i : inputs) : pending :=
  (with_bus (fun b => bus_sync b i) s, Strobes 0 false false).

Definition cycle (s : state) (i : inputs) : pending :=
  (rx_fsm s i ;; tx_fsm s i)%stmt (hold s i).

Definition step (s : state) (i : inputs) : state := fst (cycle s i).
Definition strobe (s : state) (i : inputs) : strobes := snd (cycle s i).

(** Running from a state over the inputs of successive cycles. *)
Fixpoint run (s : state) (ins : list inputs) : state :=
  match ins with
  | [] => s
  | i :: t => run (step s i) t
  end.

Inductive reachable : state -> Prop :=
| reach_reset : reachable reset
| reach_step s i : reachable s -> reachable (step s i).

(** The same against an environment that gives the inputs of every
    cycle: the state at cycle [t], counted from [s]. *)
Fixpoint state_at (s : state) (env : nat -> inputs) (t : nat) : state :=
  match t with
  | O => s
  | S t' => step (state_at s env t') (env t')
  end.

(** The data bits seen on the [sample] pulses of cycles [0 .. t-1],
    oldest first. *)
Fixpoint sampled (s : state) (env : nat -> inputs) (t : nat) : list bool :=
  match t with
  | O => []
  | S t' =>
      let b := bus (state_at s env t') in
      sampled s env t' ++ (if sample b then [data_i b] else [])
  end.

(** A property that holds after reset and that every clock cycle
    preserves. *)
Definition invariant (P : state -> Prop) : Prop :=
  P reset /\ forall s i, P s -> P (step s i).

End Subtarget.

(** *** The pads: the combinational block of [PS2Bus] *)
Definition pads_clock_o  (b : PS2Bus) : bool := false.
Definition pads_clock_oe (b : PS2Bus) : bool := negb (clock_o b).
Definition pads_data_o   (b : PS2Bus) : bool := false.
Definition pads_data_oe  (b : PS2Bus) : bool := negb (data_o b).

(** ** Predicates used in the statements *)

(** The XOR of the eight data bits of a byte, and the parity bit that
    goes with it: its complement, which makes the number of ones among
    the data bits and the parity bit odd. *)
Definition xor_reduction (d : Z) : bool :=
  fold_right xorb false (map (Z.testbit d) [0; 1; 2; 3; 4; 5; 6; 7]).

Definition odd_parity (d : Z) : Z := Z.b2z (negb (xor_reduction d)).

Definition ones (d : Z) : Z :=
  fold_right Z.add 0
    (map (fun k => Z.b2z (Z.testbit d k)) [0; 1; 2; 3; 4; 5; 6; 7]).

(** The arbiter: one of the two machines is in IDLE. *)
Definition one_idle (s : state) : Prop :=
  rx_state s = Rx.IDLE \/ tx_state s = Tx.IDLE.

(** The edge detector: a pulse register is set only when [clock_r]
    already holds the level the clock went to. *)
Definition edge_ok (s : state) : Prop :=
  (sample (bus s) = true -> clock_r (bus s) = false) /\
  (setup (bus s) = true -> clock_r (bus s) = true).

(** The bit counters are 0 outside BIT and at most 10 inside. *)
Definition rx_count_ok (s : state) : Prop :=
  match rx_state s with
  | Rx.BIT => 0 <= rx_bitno s <= 10
  | _ => rx_bitno s = 0
  end.

(** The transmitter and the two lines: the clock is pulled low exactly
    in REQUEST; the data line is released outside BIT; in BIT the stop
    bit of the frame is still ahead, [10 - tx_bitno] places up. *)
Definition tx_lines_ok (s : state) : Prop :=
  (clock_o (bus s) = negb (Tx.eqb (tx_state s) Tx.REQUEST)) /\
  match tx_state s with
  | Tx.BIT =>
      0 <= tx_bitno s <= 10 /\
      Z.testbit (raw_bits (tx_frame s)) (10 - tx_bitno s) = true
  | _ => tx_bitno s = 0 /\ data_o (bus s) = true
  end.

(** ** Scenarios

    Input sequences used to exhibit concrete reachable states: a
    peripheral clocking a byte in, and the host sending one.  The pads
    are held at a level for four cycles per half period of the PS/2
    clock. *)

Definition pads_held (c d : bool) (n : nat) (i : inputs) : list inputs :=
  repeat (Inputs c d (in_fifo_writable i) (out_fifo_readable i)
                 (out_fifo_dout i)) n.

Definition frame_bits (f : frame) : list bool :=
  map (fun k => Z.testbit (raw_bits f) (Z.of_nat k)) (seq 0 11).

(** The peripheral sends the frame of byte [b]: each bit is put on the
    data pad with the clock pad high, then the clock pad goes low. *)
Definition device_sends (i : inputs) (b : Z) : list inputs :=
  flat_map (fun d => pads_held true d 4 i ++ pads_held false d 4 i)
           (frame_bits (prepare_frame b))
  ++ pads_held true true 4 i.

(** The host sends a byte ([request_cyc] = 3): the clock pad reads low
    while the host holds it, then the peripheral clocks eleven bits out
    and answers on the data pad, low for an acknowledgment. *)
Definition host_sends (i : inputs) (ack : bool) : list inputs :=
  [i] ++ pads_held false true 3 i ++ pads_held true true 4 i
  ++ concat (repeat (pads_held false true 4 i ++ pads_held true true 4 i) 10)
  ++ pads_held false (negb ack) 4 i ++ pads_held true true 4 i.

(** Bus at rest with room in the inbound FIFO and nothing to send; the
    same with the inbound FIFO full; the same with byte F4 waiting in
    the outbound FIFO. *)
Definition quiet : inputs := Inputs true true true false 0.
Definition fifo_full : inputs := Inputs true true false false 0.
Definition sending : inputs := Inputs true true true true 0xF4.

Definition after (request_cyc : Z) (n : nat) (ins : list inputs) : state :=
  run request_cyc reset (firstn n ins).

Definition from (ins : list inputs) (t : nat) : inputs := nth t ins quiet.

(** ** More vocabulary for the statements *)

(** A list of bits as a number, first bit lowest, and the frame whose
    raw bits they are. *)
Fixpoint bits_value (l : list bool) : Z :=
  match l with
  | [] => 0
  | b :: t => Z.b2z b + 2 * bits_value t
  end.

Definition frame_of_bits (l : list bool) : frame := set_raw_bits (bits_value l).

(** The list with its bit [k] inverted. *)
Fixpoint flip_nth (k : nat) (l : list bool) : list bool :=
  match l, k with
  | [], _ => []
  | x :: t, O => negb x :: t
  | x :: t, S k' => x :: flip_nth k' t
  end.

(** The number of [setup] pulses in cycles [0 .. t-1]. *)
Fixpoint setups (request_cyc : Z) (s : state) (env : nat -> inputs)
    (t : nat) : nat :=
  match t with
  | O => O
  | S t' =>
      setups request_cyc s env t' +
      (if setup (bus (state_at request_cyc s env t')) then 1 else 0)
  end.

(** Every register holds a value of its signal: the counters stay
    below 11, the timer within its width, the frames within their
    layout. *)
Definition regs_in_range (request_cyc : Z) (s : state) : Prop :=
  0 <= rx_bitno s <= 10 /\ 0 <= tx_bitno s <= 10 /\
  0 <= tx_timer s < 2 ^ timer_w request_cyc /\
  wf_frame (rx_frame s) /\ wf_frame (tx_frame s).

(** The peripheral clocks out an arbitrary list of bits, as
    [device_sends] does for the frame of a byte. *)
Definition device_sends_bits (i : inputs) (bits : list bool) : list inputs :=
  flat_map (fun d => pads_held true d 4 i ++ pads_held false d 4 i) bits
  ++ pads_held true true 4 i.
(** * Properties *)

(** ** Bit-level facts about the vector operations *)

Lemma testbit_trunc (w x n : Z) :
  0 <= w -> Z.testbit (trunc w x) n = (n <? w) && Z.testbit x n.
Proof.
  intros Hw. unfold trunc.
  destruct (Z.ltb_spec n w) as [Hlt | Hge]; cbn [andb].
  - destruct (Z.neg_nonneg_cases n) as [Hn | Hn].
    + now rewrite !Z.testbit_neg_r.
    + now apply Z.mod_pow2_bits_low.
  - now apply Z.mod_pow2_bits_high.
Qed.

Lemma testbit_slice (x lo hi n : Z) :
  0 <= n -> lo <= hi ->
  Z.testbit (slice x lo hi) n = (n <? hi - lo) && Z.testbit x (n + lo).
Proof.
  intros Hn Hw. unfold slice.
  rewrite testbit_trunc by lia. now rewrite Z.shiftr_spec.
Qed.

Lemma trunc_bit (x : Z) : trunc 1 x = Z.b2z (Z.testbit x 0).
Proof. unfold trunc. now rewrite Z.bit0_mod. Qed.

Lemma slice_bit (x k : Z) :
  0 <= k -> slice x k (k + 1) = Z.b2z (Z.testbit x k).
Proof.
  intros Hk. unfold slice.
  replace (k + 1 - k) with 1 by lia.
  rewrite trunc_bit. now rewrite Z.shiftr_spec.
Qed.

Lemma testbit_b2z (b : bool) (n : Z) :
  Z.testbit (Z.b2z b) n = (n =? 0) && b.
Proof.
  destruct (Z.eqb_spec n 0) as [-> | Hn]; cbn [andb].
  - apply Z.b2z_bit0.
  - destruct b; cbn [Z.b2z].
    + destruct n as [|p|p]; try easy; now destruct p.
    + apply Z.testbit_0_l.
Qed.

Lemma testbit_Cat_cons (w v : Z) (t : list (Z * Z)) (n : Z) :
  0 <= w -> 0 <= n ->
  Z.testbit (Cat ((w, v) :: t)) n =
  if n <? w then Z.testbit v n else Z.testbit (Cat t) (n - w).
Proof.
  intros Hw Hn. cbn [Cat].
  rewrite Z.lor_spec, testbit_trunc, Z.shiftl_spec by lia.
  destruct (Z.ltb_spec n w); cbn [andb].
  - rewrite (Z.testbit_neg_r _ (n - w)) by lia. apply orb_false_r.
  - reflexivity.
Qed.

Lemma testbit_Cat_nil (n : Z) : Z.testbit (Cat []) n = false.
Proof. apply Z.testbit_0_l. Qed.

(** Reading the raw bits of a frame, field by field. *)
Lemma testbit_raw_bits (f : frame) (n : Z) :
  0 <= n ->
  Z.testbit (raw_bits f) n =
  if n <? 1 then Z.testbit (start f) n
  else if n <? 9 then Z.testbit (data f) (n - 1)
  else if n <? 10 then Z.testbit (parity f) (n - 9)
  else if n <? 11 then Z.testbit (stop f) (n - 10)
  else false.
Proof.
  intros Hn. unfold raw_bits.
  rewrite testbit_Cat_cons by lia.
  destruct (Z.ltb_spec n 1); [reflexivity|].
  rewrite testbit_Cat_cons by lia.
  destruct (Z.ltb_spec (n - 1) 8), (Z.ltb_spec n 9); try lia; [reflexivity|].
  rewrite testbit_Cat_cons by lia.
  destruct (Z.ltb_spec (n - 1 - 8) 1), (Z.ltb_spec n 10); try lia;
    [f_equal; lia|].
  rewrite testbit_Cat_cons by lia.
  destruct (Z.ltb_spec (n - 1 - 8 - 1) 1), (Z.ltb_spec n 11); try lia;
    [f_equal; lia|].
  apply testbit_Cat_nil.
Qed.

(** Writing a vector into a frame and reading it back keeps its low
    eleven bits. *)
Lemma raw_bits_set_raw_bits (v : Z) : raw_bits (set_raw_bits v) = trunc 11 v.
Proof.
  apply Z.bits_inj'. intros n Hn.
  rewrite testbit_raw_bits, testbit_trunc by lia.
  cbn [set_raw_bits start data parity stop].
  destruct (Z.ltb_spec n 1), (Z.ltb_spec n 9), (Z.ltb_spec n 10),
    (Z.ltb_spec n 11); try lia; cbn [andb];
    try reflexivity;
    rewrite testbit_slice by lia;
    match goal with
    | |- (?a <? ?b) && _ = _ =>
        destruct (Z.ltb_spec a b); try lia; cbn [andb]; f_equal; lia
    end.
Qed.

(** ** The frame codec *)

Lemma reduce_xor_bits (d : Z) :
  reduce Z.lxor (iter_bits 8 d) = Z.b2z (xor_reduction d).
Proof.
  unfold iter_bits, reduce, xor_reduction.
  cbn [seq map fold_left fold_right].
  rewrite !slice_bit by lia.
  cbn [Z.of_nat Pos.of_succ_nat Pos.succ].
  destruct (Z.testbit d 0), (Z.testbit d 1), (Z.testbit d 2),
    (Z.testbit d 3), (Z.testbit d 4), (Z.testbit d 5),
    (Z.testbit d 6), (Z.testbit d 7); reflexivity.
Qed.

Lemma inv_bit (b : bool) : inv 1 (Z.b2z b) = Z.b2z (negb b).
Proof. now destruct b. Qed.

Lemma parity_expr (d : Z) :
  inv 1 (reduce Z.lxor (iter_bits 8 d)) = odd_parity d.
Proof. rewrite reduce_xor_bits. apply inv_bit. Qed.

Lemma odd_parity_is_odd (d : Z) : Z.odd (ones d + odd_parity d) = true.
Proof.
  unfold ones, odd_parity, xor_reduction. cbn [map fold_right].
  destruct (Z.testbit d 0), (Z.testbit d 1), (Z.testbit d 2),
    (Z.testbit d 3), (Z.testbit d 4), (Z.testbit d 5),
    (Z.testbit d 6), (Z.testbit d 7); reflexivity.
Qed.

Lemma check_frame_true (f : frame) :
  check_frame f = true <->
  start f = 0 /\ parity f = odd_parity (data f) /\ stop f = 1.
Proof.
  unfold check_frame. rewrite parity_expr.
  rewrite !andb_true_iff, !Z.eqb_eq. tauto.
Qed.

(** C4.  For every frame of the layout (a start bit, eight data bits,
    a parity bit, a stop bit), [check_frame] answers true exactly when
    the start bit is 0, the parity bit is the complement of the XOR of
    the eight data bits, and the stop bit is 1; on any mismatch it
    answers false (it is a total function, nothing is raised). *)
Theorem check_frame_spec (f : frame) :
  wf_frame f ->
  (check_frame f = true <->
     start f = 0 /\
     Z.testbit (parity f) 0 = negb (xor_reduction (data f)) /\
     stop f = 1) /\
  (check_frame f = false <->
     start f = 1 \/
     Z.testbit (parity f) 0 = xor_reduction (data f) \/
     stop f = 0).
Proof.
  intros (Hs & _ & Hp & Ht).
  assert (Hpar : parity f = odd_parity (data f) <->
                 Z.testbit (parity f) 0 = negb (xor_reduction (data f))).
  { unfold odd_parity.
    assert (parity f = 0 \/ parity f = 1) as [-> | ->] by lia;
      destruct (xor_reduction (data f)); cbn; intuition congruence. }
  split.
  - rewrite check_frame_true. tauto.
  - rewrite <- not_true_iff_false, check_frame_true, Hpar.
    destruct (Z.testbit (parity f) 0), (xor_reduction (data f));
      cbn [negb]; split; intros H;
      try (exfalso; apply H; repeat split; lia || reflexivity).
    all: try (intros (? & ? & ?); destruct H as [H | [H | H]];
              lia || discriminate).
    all: assert (start f = 0 \/ start f = 1) as [? | ?] by lia;
         assert (stop f = 0 \/ stop f = 1) as [? | ?] by lia;
         try (exfalso; apply H; repeat split; lia || reflexivity);
         auto.
Qed.

Lemma check_frame_spec_witness :
  let f := Frame 0 0xF4 0 1 in
  wf_frame f /\ check_frame f = true.
Proof.
  cbv zeta. split.
  - unfold wf_frame; cbn; lia.
  - apply (proj1 (check_frame_spec (Frame 0 0xF4 0 1)
                    ltac:(unfold wf_frame; cbn; lia))).
    repeat split.
Defined.

(** C9.  The frame that [prepare_frame] builds for a byte has start 0,
    the byte as data, the odd-parity bit of the byte and stop 1, and
    [check_frame] accepts it. *)
Theorem check_prepare_frame (b : Z) :
  0 <= b < 256 ->
  let f := prepare_frame b in
  start f = 0 /\ data f = b /\
  Z.testbit (parity f) 0 = negb (xor_reduction b) /\
  stop f = 1 /\
  check_frame f = true.
Proof.
  intros Hb f.
  assert (Hd : data f = b).
  { unfold f, prepare_frame, trunc; cbn [data]. now apply Z.mod_small. }
  assert (Hp : parity f = odd_parity b).
  { unfold f, prepare_frame; cbn [parity]. apply parity_expr. }
  repeat split; try assumption.
  - rewrite Hp. unfold odd_parity. apply Z.b2z_bit0.
  - apply check_frame_true. rewrite Hd. now repeat split.
Qed.

Lemma check_prepare_frame_witness :
  0 <= 0xF4 < 256 /\ check_frame (prepare_frame 0xF4) = true.
Proof.
  split; [lia|].
  apply (check_prepare_frame 0xF4). lia.
Defined.

(** ** Stepping the design in proofs *)

Ltac cbn_regs :=
  cbn [fst snd bus rx_state rx_frame rx_bitno tx_state tx_timer tx_frame
       tx_bitno clock_m clock_i data_m data_i clock_s clock_r sample setup
       clock_o data_o in_fifo_din in_fifo_we out_fifo_re
       Rx.eqb Tx.eqb andb negb] in *.

Ltac case_if :=
  match goal with
  | |- context [if ?c then _ else _] => destruct c eqn:?
  end.

(** The writes of a branch, innermost first. *)
Ltac unfold_next :=
  cbv beta iota zeta delta
    [Next_clock_o Next_data_o Next_rx_state Next_rx_frame
     Next_rx_bitno Next_tx_state Next_tx_timer Next_tx_frame
     Next_tx_bitno in_fifo_write out_fifo_read on_state on_strobes
     with_bus bus_sync
     fst snd bus rx_state rx_frame rx_bitno tx_state tx_timer tx_frame
     tx_bitno clock_m clock_i data_m data_i clock_s clock_r sample setup
     clock_o data_o in_fifo_din in_fifo_we out_fifo_re].

(** Open one clock cycle of a state given by its registers: first the
    guards of the two machines, case by case, then the writes of the
    branch taken. *)
Ltac eqb_hyps :=
  repeat match goal with
    | H : (_ =? _) = true |- _ => apply Z.eqb_eq in H
    | H : (_ =? _) = false |- _ => apply Z.eqb_neq in H
    end.

Ltac step_cases :=
  unfold step, strobe, cycle, hold, rx_fsm, tx_fsm; cbn_regs;
  unfold then_, If, IfElse; cbn beta;
  repeat case_if;
  unfold_next; cbn_regs; eqb_hyps.

Ltac destruct_state s :=
  destruct s as [b rs rf rb ts tt tf tb];
  destruct b as [cm ci dm di cs cr sa se co do];
  cbn_regs.

Section Invariants.

Variable request_cyc : Z.

Lemma reachable_run (s : state) (ins : list inputs) :
  reachable request_cyc s -> reachable request_cyc (run request_cyc s ins).
Proof.
  revert s. induction ins as [|i t IH]; intros s Hs; cbn [run].
  - exact Hs.
  - apply IH. now constructor.
Qed.

Lemma invariant_reachable (P : state -> Prop) :
  invariant request_cyc P -> forall s, reachable request_cyc s -> P s.
Proof.
  intros [H0 HS] s Hs. induction Hs; auto.
Qed.

(** *** The arbiter *)
Lemma one_idle_invariant : invariant request_cyc one_idle.
Proof.
  split; [now left|].
  intros s i. unfold one_idle. destruct_state s.
  intros [-> | ->].
  - destruct ts; step_cases; auto; congruence.
  - destruct rs; step_cases; auto; congruence.
Qed.

(** *** The edge detector *)
Lemma bus_step (s : state) (i : inputs) :
  let b := bus s in
  let b' := bus (step request_cyc s i) in
  clock_m b' = pads_clock_i i /\ clock_i b' = clock_m b /\
  data_m b' = pads_data_i i /\ data_i b' = data_m b /\
  clock_s b' = clock_i b /\ clock_r b' = clock_s b /\
  sample b' = clock_r b && negb (clock_s b) /\
  setup b' = negb (clock_r b) && clock_s b.
Proof.
  destruct_state s.
  destruct rs, ts; step_cases; repeat split.
Qed.

Lemma edge_ok_invariant : invariant request_cyc edge_ok.
Proof.
  split; [split; discriminate|].
  intros s i _. unfold edge_ok.
  destruct (bus_step s i) as (_ & _ & _ & _ & _ & -> & -> & ->).
  destruct (clock_r (bus s)), (clock_s (bus s)); cbn; auto.
Qed.

(** *** The bit counters *)
Lemma bitno_w_eq : bitno_w = 4.
Proof. reflexivity. Qed.

Lemma trunc_small (w x : Z) : 0 <= x < 2 ^ w -> trunc w x = x.
Proof. intros H. unfold trunc. now apply Z.mod_small. Qed.

Lemma bitno_succ (n : Z) : 0 <= n < 10 -> trunc bitno_w (n + 1) = n + 1.
Proof. intros H. rewrite bitno_w_eq. apply trunc_small. lia. Qed.

Lemma rx_count_ok_invariant : invariant request_cyc rx_count_ok.
Proof.
  split; [reflexivity|].
  intros s i. unfold rx_count_ok. destruct_state s.
  destruct rs, ts; step_cases; intros H; try congruence; try lia.
  all: rewrite bitno_succ; lia.
Qed.

(** *** The transmitter and the two lines *)
Lemma slice_low_bit (x : Z) : Z.odd (slice x 0 1) = Z.testbit x 0.
Proof.
  replace (slice x 0 1) with (Z.b2z (Z.testbit x 0))
    by (symmetry; apply (slice_bit x 0); lia).
  now destruct (Z.testbit x 0).
Qed.

Lemma prepare_frame_stop (d : Z) :
  Z.testbit (raw_bits (prepare_frame d)) 10 = true.
Proof. now rewrite testbit_raw_bits by lia. Qed.

Lemma shifted_out_bit (f : frame) (k : Z) :
  0 <= k < 10 ->
  Z.testbit (raw_bits (set_raw_bits (slice (raw_bits f) 1 11))) k =
  Z.testbit (raw_bits f) (k + 1).
Proof.
  intros Hk. rewrite raw_bits_set_raw_bits, testbit_trunc by lia.
  rewrite testbit_slice by lia.
  destruct (Z.ltb_spec k 11), (Z.ltb_spec k (11 - 1)); try lia.
  reflexivity.
Qed.

Lemma tx_lines_ok_invariant : invariant request_cyc tx_lines_ok.
Proof.
  split; [now repeat split|].
  intros s i. unfold tx_lines_ok. destruct_state s.
  destruct rs, ts; step_cases; intros [Hc [Hb Hd]]; subst;
    (split; [reflexivity || assumption|]);
    try (split; [reflexivity || assumption | reflexivity || assumption]).
  (* REQUEST to BIT: the frame just prepared *)
  all: try (split; [lia | apply prepare_frame_stop]).
  (* BIT to ACK: the stop bit goes out last *)
  all: try (split; [reflexivity|]; rewrite slice_low_bit; exact Hd).
  (* BIT to BIT: one place down *)
  all: rewrite bitno_succ by lia; split; [lia|];
       rewrite shifted_out_bit by lia; rewrite <- Hd; f_equal; lia.
Qed.

Lemma reachable_state_at (s : state) (env : nat -> inputs) (t : nat) :
  reachable request_cyc s -> reachable request_cyc (state_at request_cyc s env t).
Proof.
  intros Hs. induction t as [|t IH]; cbn [state_at].
  - exact Hs.
  - now constructor.
Qed.

(** *** Guards of the two IDLE states *)
Lemma rx_leaves_idle (s : state) (i : inputs) :
  rx_state s = Rx.IDLE -> rx_state (step request_cyc s i) <> Rx.IDLE ->
  tx_state s = Tx.IDLE /\ clock_i (bus s) = false /\
  rx_state (step request_cyc s i) = Rx.BIT /\
  tx_state (step request_cyc s i) = Tx.IDLE.
Proof.
  destruct_state s. intros ->.
  destruct ts, ci; step_cases; intros H; try congruence; now repeat split.
Qed.

Lemma tx_leaves_idle (s : state) (i : inputs) :
  tx_state s = Tx.IDLE -> tx_state (step request_cyc s i) <> Tx.IDLE ->
  rx_state s = Rx.IDLE /\ clock_i (bus s) = true /\
  out_fifo_readable i = true /\
  tx_state (step request_cyc s i) = Tx.REQUEST /\
  rx_state (step request_cyc s i) = Rx.IDLE.
Proof.
  destruct_state s. intros ->.
  destruct rs, ci; step_cases; intros H; try congruence; now repeat split.
Qed.

(** C1.  Mutual exclusion of the two machines.  In every state
    reachable from reset at most one of them is outside IDLE: if the
    receiver is outside IDLE the transmitter is in IDLE, and if the
    transmitter is outside IDLE the receiver is in IDLE.  A machine
    leaves IDLE only in a cycle in which the other one is in IDLE, and
    the other one is still in IDLE after that cycle. *)
Theorem mutual_exclusion (s : state) :
  reachable request_cyc s ->
  (rx_state s <> Rx.IDLE -> tx_state s = Tx.IDLE) /\
  (tx_state s <> Tx.IDLE -> rx_state s = Rx.IDLE) /\
  (forall i, rx_state s = Rx.IDLE ->
             rx_state (step request_cyc s i) <> Rx.IDLE ->
             tx_state s = Tx.IDLE /\
             tx_state (step request_cyc s i) = Tx.IDLE) /\
  (forall i, tx_state s = Tx.IDLE ->
             tx_state (step request_cyc s i) <> Tx.IDLE ->
             rx_state s = Rx.IDLE /\
             rx_state (step request_cyc s i) = Rx.IDLE).
Proof.
  intros Hs.
  pose proof (invariant_reachable _ one_idle_invariant s Hs) as [H | H].
  all: repeat split; try congruence; try tauto.
  all: try (intros; edestruct rx_leaves_idle as (? & ? & ? & ?);
            eauto; congruence).
  all: try (intros; edestruct tx_leaves_idle as (? & ? & ? & ? & ?);
            eauto; congruence).
Qed.

(** C7.  Open-drain discipline.  In every reachable state, for the
    clock pad and for the data pad, the value driven is 0 whenever the
    output is enabled; the output is enabled exactly when the
    corresponding line register is low, so a line is either pulled low
    or released and never driven high. *)
Theorem open_drain (s : state) :
  reachable request_cyc s ->
  let b := bus s in
  (pads_clock_oe b = true -> pads_clock_o b = false) /\
  (pads_data_oe b = true -> pads_data_o b = false) /\
  (pads_clock_oe b = true <-> clock_o b = false) /\
  (pads_data_oe b = true <-> data_o b = false).
Proof.
  intros _ b. unfold pads_clock_oe, pads_clock_o, pads_data_oe, pads_data_o.
  destruct (clock_o b), (data_o b); cbn; intuition congruence.
Qed.

(** C10.  In every reachable state the two pulses [sample] and
    [setup] are not both asserted. *)
Theorem sample_setup_exclusive (s : state) :
  reachable request_cyc s ->
  ~ (sample (bus s) = true /\ setup (bus s) = true).
Proof.
  intros Hs [Ha Hb].
  destruct (invariant_reachable _ edge_ok_invariant s Hs) as [H1 H2].
  rewrite (H1 Ha) in H2. discriminate (H2 Hb).
Qed.

(** C8.  The pulses of the edge detector, along any run from a
    reachable state.  [sample] is high in a cycle exactly when, in the
    cycle before, [clock_r] (the copy registered twice) was high and
    [clock_s] (registered once) was low: [clock_s] fell between two
    consecutive cycles, which is the synchronised clock [clock_i]
    falling one cycle earlier.  It is never high in two consecutive
    cycles, so a falling edge gives one pulse of one cycle.  [setup]
    is the same for a rising edge. *)
Theorem edge_pulses (s : state) (env : nat -> inputs) (t : nat) :
  reachable request_cyc s ->
  let b := fun k => bus (state_at request_cyc s env k) in
  (sample (b (1 + t)%nat) = true <->
     clock_r (b t) = true /\ clock_s (b t) = false) /\
  (sample (b (2 + t)%nat) = true <->
     clock_s (b t) = true /\ clock_s (b (1 + t)%nat) = false) /\
  (sample (b (3 + t)%nat) = true <->
     clock_i (b t) = true /\ clock_i (b (1 + t)%nat) = false) /\
  (sample (b t) = true -> sample (b (1 + t)%nat) = false) /\
  (setup (b (1 + t)%nat) = true <->
     clock_r (b t) = false /\ clock_s (b t) = true) /\
  (setup (b (2 + t)%nat) = true <->
     clock_s (b t) = false /\ clock_s (b (1 + t)%nat) = true) /\
  (setup (b (3 + t)%nat) = true <->
     clock_i (b t) = false /\ clock_i (b (1 + t)%nat) = true) /\
  (setup (b t) = true -> setup (b (1 + t)%nat) = false).
Proof.
  intros Hs b.
  assert (Hstep : forall k,
    clock_s (b (S k)) = clock_i (b k) /\ clock_r (b (S k)) = clock_s (b k) /\
    sample (b (S k)) = clock_r (b k) && negb (clock_s (b k)) /\
    setup (b (S k)) = negb (clock_r (b k)) && clock_s (b k)).
  { intros k. unfold b. cbn [state_at].
    destruct (bus_step (state_at request_cyc s env k) (env k))
      as (_ & _ & _ & _ & H1 & H2 & H3 & H4). auto. }
  destruct (invariant_reachable _ edge_ok_invariant _
              (reachable_state_at s env t Hs)) as [Ea Eb].
  fold (b t) in Ea, Eb.
  cbn [Nat.add].
  destruct (Hstep t) as (S1 & R1 & A1 & U1).
  destruct (Hstep (S t)) as (S2 & R2 & A2 & U2).
  destruct (Hstep (S (S t))) as (_ & _ & A3 & U3).
  rewrite ?A3, ?U3, ?R2, ?S2, ?A2, ?U2, ?R1, ?S1, ?A1, ?U1.
  destruct (clock_r (b t)), (clock_s (b t)), (clock_i (b t)),
    (clock_i (b (S t))), (sample (b t)), (setup (b t));
    cbn [andb negb]; intuition congruence.
Qed.

(** *** The request-to-send sequence *)
Lemma state_at_front (s : state) (env : nat -> inputs) (t : nat) :
  state_at request_cyc s env (S t) =
  state_at request_cyc (step request_cyc s (env O)) (fun k => env (S k)) t.
Proof.
  induction t as [|t IH]; [reflexivity|].
  change (state_at request_cyc s env (S (S t)))
    with (step request_cyc (state_at request_cyc s env (S t)) (env (S t))).
  now rewrite IH.
Qed.

Lemma timer_fits : 1 <= request_cyc ->
  0 <= request_cyc - 1 < 2 ^ timer_w request_cyc.
Proof.
  intros H. unfold timer_w, bits_for. split; [lia|].
  destruct (Z.eq_dec (request_cyc - 1) 0) as [-> | Hn]; [reflexivity|].
  apply Z.log2_spec. lia.
Qed.

Lemma tx_idle_step (s : state) (i : inputs) :
  tx_state s = Tx.IDLE -> rx_state s = Rx.IDLE ->
  clock_i (bus s) = true -> out_fifo_readable i = true ->
  let s' := step request_cyc s i in
  tx_state s' = Tx.REQUEST /\
  tx_timer s' = trunc (timer_w request_cyc) (request_cyc - 1) /\
  clock_o (bus s') = false /\ data_o (bus s') = data_o (bus s).
Proof.
  destruct_state s. intros -> -> -> Hr.
  step_cases; try congruence. now repeat split.
Qed.

Lemma tx_request_step (s : state) (i : inputs) :
  tx_state s = Tx.REQUEST ->
  let s' := step request_cyc s i in
  (tx_timer s = 0 ->
     tx_state s' = Tx.BIT /\ clock_o (bus s') = true /\
     data_o (bus s') = false /\
     tx_frame s' = prepare_frame (out_fifo_dout i)) /\
  (tx_timer s <> 0 ->
     tx_state s' = Tx.REQUEST /\
     tx_timer s' = trunc (timer_w request_cyc) (tx_timer s - 1) /\
     clock_o (bus s') = clock_o (bus s) /\
     data_o (bus s') = data_o (bus s)).
Proof.
  destruct_state s. intros ->.
  destruct rs; step_cases; split; intros H; try congruence;
    now repeat split.
Qed.

(** From REQUEST with [k] on the timer: [k] more cycles in REQUEST
    with the lines as they are, and BIT after the next one. *)
Lemma request_countdown (k : nat) (s : state) (env : nat -> inputs) :
  tx_state s = Tx.REQUEST -> tx_timer s = Z.of_nat k ->
  Z.of_nat k < 2 ^ timer_w request_cyc ->
  (forall j, (j <= k)%nat ->
     let s' := state_at request_cyc s env j in
     tx_state s' = Tx.REQUEST /\ tx_timer s' = Z.of_nat (k - j) /\
     clock_o (bus s') = clock_o (bus s) /\
     data_o (bus s') = data_o (bus s)) /\
  (let s' := state_at request_cyc s env (S k) in
   tx_state s' = Tx.BIT /\ clock_o (bus s') = true /\
   data_o (bus s') = false /\
   tx_frame s' = prepare_frame (out_fifo_dout (env k))).
Proof.
  intros Hst Ht Hk.
  assert (Hwait : forall j, (j <= k)%nat ->
     let s' := state_at request_cyc s env j in
     tx_state s' = Tx.REQUEST /\ tx_timer s' = Z.of_nat (k - j) /\
     clock_o (bus s') = clock_o (bus s) /\
     data_o (bus s') = data_o (bus s)).
  { induction j as [|j IH]; intros Hj; cbn [state_at].
    - rewrite Nat.sub_0_r. auto.
    - destruct IH as (I1 & I2 & I3 & I4); [lia|].
      destruct (tx_request_step _ (env j) I1) as [_ Hgo].
      destruct Hgo as (G1 & G2 & G3 & G4); [lia|].
      repeat split; try congruence.
      rewrite G2, I2, trunc_small; lia. }
  split; [exact Hwait|].
  destruct (Hwait k) as (I1 & I2 & _); [lia|].
  cbn [state_at].
  destruct (tx_request_step _ (env k) I1) as [Hfire _].
  apply Hfire. lia.
Qed.

(** C3.  Request-to-send timing.  Take a reachable state in which
    the transmitter starts a request (it is in IDLE, the receiver is
    in IDLE, the synchronised clock is high and the outbound FIFO is
    readable), and [request_cyc >= 1].  Both lines are released in
    that cycle.  [clock_o] is low from the next cycle, cycle 1, to
    cycle [request_cyc], with [data_o] still high; in cycle
    [request_cyc + 1] the clock is released and [data_o] is low.  So
    [data_o] goes low exactly [request_cyc] cycles after [clock_o]
    went low. *)
Theorem request_to_send_timing (s : state) (env : nat -> inputs) :
  1 <= request_cyc ->
  reachable request_cyc s ->
  tx_state s = Tx.IDLE -> rx_state s = Rx.IDLE ->
  clock_i (bus s) = true -> out_fifo_readable (env O) = true ->
  let at_ := fun t => state_at request_cyc s env t in
  let n := Z.to_nat request_cyc in
  (clock_o (bus (at_ O)) = true /\ data_o (bus (at_ O)) = true) /\
  (forall t, (1 <= t <= n)%nat ->
     tx_state (at_ t) = Tx.REQUEST /\
     clock_o (bus (at_ t)) = false /\ data_o (bus (at_ t)) = true) /\
  (tx_state (at_ (S n)) = Tx.BIT /\
   clock_o (bus (at_ (S n))) = true /\ data_o (bus (at_ (S n))) = false).
Proof.
  intros Hrc Hs Htx Hrx Hck Hrd at_ n.
  destruct (invariant_reachable _ tx_lines_ok_invariant s Hs) as [Hco Hdo].
  rewrite Htx in Hco, Hdo. cbn [Tx.eqb negb] in Hco. destruct Hdo as [_ Hdo].
  destruct (tx_idle_step s (env O) Htx Hrx Hck Hrd) as (R1 & R2 & R3 & R4).
  pose proof timer_fits Hrc as Hfit.
  rewrite trunc_small in R2 by exact Hfit.
  assert (Hn : (n = S (Z.to_nat (request_cyc - 1)))%nat) by (unfold n; lia).
  destruct (request_countdown (Z.to_nat (request_cyc - 1))
              (step request_cyc s (env O)) (fun k => env (S k)) R1)
    as [Hwait Hfire]; [lia | lia |].
  split; [now split|]. split.
  - intros t Ht. destruct t as [|t]; [lia|].
    unfold at_. rewrite state_at_front.
    destruct (Hwait t) as (W1 & _ & W3 & W4); [lia|].
    repeat split; congruence.
  - unfold at_. rewrite Hn, state_at_front.
    destruct Hfire as (F1 & F2 & F3 & _). now repeat split.
Qed.

(** *** The ACK state of the transmitter *)

(** One cycle in ACK.  On a cycle with the [sample] pulse, the read
    strobe of the outbound FIFO (which commits the consumption of the
    byte just sent) is asserted exactly when the data line reads low;
    when it reads high the byte is not committed; either way the
    transmitter goes to IDLE-WAIT in that cycle with its frame,
    counters and both lines untouched.  Without the pulse it waits in
    ACK and reads nothing. *)
Lemma tx_ack_step (s : state) (i : inputs) :
  tx_state s = Tx.ACK ->
  let s' := step request_cyc s i in
  let o := strobe request_cyc s i in
  (sample (bus s) = true ->
     (out_fifo_re o = true <-> data_i (bus s) = false) /\
     (data_i (bus s) = true -> out_fifo_re o = false) /\
     tx_state s' = Tx.IDLE_WAIT /\
     tx_frame s' = tx_frame s /\ tx_bitno s' = tx_bitno s /\
     tx_timer s' = tx_timer s /\
     clock_o (bus s') = clock_o (bus s) /\
     data_o (bus s') = data_o (bus s)) /\
  (sample (bus s) = false ->
     out_fifo_re o = false /\ tx_state s' = Tx.ACK).
Proof.
  destruct_state s. intros ->.
  destruct rs, sa, di; step_cases; split; intros H; try discriminate H;
    repeat split; congruence.
Qed.

(** *** The FRAME state of the receiver *)
Lemma rx_frame_step (s : state) (i : inputs) :
  rx_state s = Rx.FRAME ->
  let s' := step request_cyc s i in
  let o := strobe request_cyc s i in
  rx_frame s' = rx_frame s /\
  (check_frame (rx_frame s) = false ->
     in_fifo_we o = false /\ rx_state s' = Rx.IDLE_WAIT) /\
  (check_frame (rx_frame s) = true -> in_fifo_writable i = true ->
     in_fifo_we o = true /\ in_fifo_din o = data (rx_frame s) /\
     rx_state s' = Rx.IDLE_WAIT) /\
  (check_frame (rx_frame s) = true -> in_fifo_writable i = false ->
     in_fifo_we o = false /\ rx_state s' = Rx.FRAME).
Proof.
  destruct_state s. intros ->.
  destruct ts; step_cases; repeat split; congruence.
Qed.

(** C2, as the design has it.  In FRAME with a frame that
    [check_frame] accepts, while the inbound FIFO is not writable
    nothing is written and the receiver stays in FRAME with the frame
    kept; in the first cycle in which the FIFO is writable the data
    byte of that frame is written and the receiver goes to IDLE-WAIT.
    With a frame that [check_frame] rejects, nothing is written and
    the receiver goes to IDLE-WAIT in that cycle. *)
Theorem rx_frame_waits_for_space (s : state) (env : nat -> inputs) (n : nat) :
  rx_state s = Rx.FRAME ->
  let at_ := fun t => state_at request_cyc s env t in
  let o := fun t => strobe request_cyc (at_ t) (env t) in
  (check_frame (rx_frame s) = false ->
     in_fifo_we (o O) = false /\ rx_state (at_ 1%nat) = Rx.IDLE_WAIT) /\
  (check_frame (rx_frame s) = true ->
     (forall t, (t < n)%nat -> in_fifo_writable (env t) = false) ->
     (forall t, (t < n)%nat ->
        in_fifo_we (o t) = false /\
        rx_state (at_ (S t)) = Rx.FRAME /\
        rx_frame (at_ (S t)) = rx_frame s) /\
     (in_fifo_writable (env n) = true ->
        in_fifo_we (o n) = true /\
        in_fifo_din (o n) = data (rx_frame s) /\
        rx_state (at_ (S n)) = Rx.IDLE_WAIT)).
Proof.
  intros Hst at_ o. split.
  - intros Hbad. unfold o, at_. cbn [state_at].
    now apply rx_frame_step.
  - intros Hok Hfull.
    assert (Hstay : forall t, (t <= n)%nat ->
              rx_state (at_ t) = Rx.FRAME /\ rx_frame (at_ t) = rx_frame s).
    { induction t as [|t IH]; intros Ht; [now split|].
      destruct IH as [I1 I2]; [lia|].
      unfold at_ in *. cbn [state_at].
      destruct (rx_frame_step _ (env t) I1) as (F & _ & _ & W).
      rewrite I2 in W, F.
      destruct W as [_ W]; [assumption | apply Hfull; lia |].
      now split. }
    split.
    + intros t Ht.
      destruct (Hstay t) as [I1 I2]; [lia|].
      destruct (Hstay (S t)) as [J1 J2]; [lia|].
      repeat split; try assumption.
      unfold o. destruct (rx_frame_step _ (env t) I1) as (_ & _ & _ & W).
      rewrite I2 in W. apply W; auto.
    + intros Hw. destruct (Hstay n) as [I1 I2]; [lia|].
      unfold o, at_ in *. cbn [state_at].
      destruct (rx_frame_step _ (env n) I1) as (_ & _ & W & _).
      rewrite I2 in W. now apply W.
Qed.

(** *** The BIT state of the receiver *)
Lemma shifted_in_bit (f : frame) (d : bool) (k : Z) :
  0 <= k < 11 ->
  Z.testbit (raw_bits (set_raw_bits
               (Cat [(10, slice (raw_bits f) 1 11); (1, Z.b2z d)]))) k =
  if k <? 10 then Z.testbit (raw_bits f) (k + 1) else d.
Proof.
  intros Hk. rewrite raw_bits_set_raw_bits, testbit_trunc by lia.
  destruct (Z.ltb_spec k 11); [cbn [andb] | lia].
  rewrite testbit_Cat_cons by lia.
  destruct (Z.ltb_spec k 10).
  - rewrite testbit_slice by lia.
    destruct (Z.ltb_spec k (11 - 1)); [reflexivity | lia].
  - rewrite testbit_Cat_cons, testbit_b2z by lia.
    replace k with 10 by lia. reflexivity.
Qed.

Lemma rx_bit_step (s : state) (i : inputs) :
  rx_state s = Rx.BIT ->
  let s' := step request_cyc s i in
  (sample (bus s) = false ->
     rx_state s' = Rx.BIT /\ rx_frame s' = rx_frame s /\
     rx_bitno s' = rx_bitno s) /\
  (sample (bus s) = true ->
     rx_frame s' =
       set_raw_bits (Cat [(10, slice (raw_bits (rx_frame s)) 1 11);
                          (1, Z.b2z (data_i (bus s)))]) /\
     (rx_bitno s = 10 -> rx_state s' = Rx.FRAME /\ rx_bitno s' = 0) /\
     (rx_bitno s <> 10 ->
        rx_state s' = Rx.BIT /\
        rx_bitno s' = trunc bitno_w (rx_bitno s + 1))).
Proof.
  destruct_state s. intros ->.
  destruct ts, sa; step_cases; split; intros H; try discriminate H;
    repeat split; congruence.
Qed.

(** While at most ten pulses have been seen since BIT was entered,
    the counter is their number and the bits sit at the top of the
    frame, oldest lowest. *)
Lemma rx_assembly (s : state) (env : nat -> inputs) (t : nat) :
  rx_state s = Rx.BIT -> rx_bitno s = 0 ->
  let bits := sampled request_cyc s env t in
  let s' := state_at request_cyc s env t in
  (length bits <= 10)%nat ->
  rx_state s' = Rx.BIT /\ rx_bitno s' = Z.of_nat (length bits) /\
  forall k, (k < length bits)%nat ->
    Z.testbit (raw_bits (rx_frame s'))
      (11 - Z.of_nat (length bits) + Z.of_nat k) = nth k bits false.
Proof.
  intros Hst Hno. induction t as [|t IH]; cbn [sampled state_at length].
  - intros _. repeat split; try assumption. intros k Hk. inversion Hk.
  - cbv zeta in IH |- *.
    set (st := state_at request_cyc s env t) in *.
    set (bits := sampled request_cyc s env t) in *.
    rewrite length_app.
    intros Hlen. destruct IH as (I1 & I2 & I3); [lia|].
    destruct (rx_bit_step st (env t) I1) as [Hquiet Hpulse].
    destruct (sample (bus st)); cbn [length] in *.
    + destruct Hpulse as (F & _ & C); [reflexivity|].
      destruct C as [C1 C2]; [lia|].
      rewrite F, C2, I2, bitno_succ by lia.
      repeat split; [assumption | lia |].
      intros k Hk. rewrite shifted_in_bit by lia.
      destruct (Z.ltb_spec (11 - Z.of_nat (length bits + 1) + Z.of_nat k) 10).
      * rewrite app_nth1 by lia. rewrite <- I3 by lia. f_equal. lia.
      * replace k with (length bits) by lia.
        now rewrite nth_middle.
    + destruct Hquiet as (Q1 & Q2 & Q3); [reflexivity|].
      rewrite Q2, Q3, app_nil_r, Nat.add_0_r.
      repeat split; assumption.
Qed.

(** The eleventh pulse completes the frame. *)
Lemma rx_assembly_done (s : state) (env : nat -> inputs) (t : nat) :
  rx_state s = Rx.BIT -> rx_bitno s = 0 ->
  length (sampled request_cyc s env t) = 10%nat ->
  sample (bus (state_at request_cyc s env t)) = true ->
  let bits := sampled request_cyc s env (S t) in
  let s' := state_at request_cyc s env (S t) in
  length bits = 11%nat /\
  rx_state s' = Rx.FRAME /\ rx_bitno s' = 0 /\
  forall k, (k < 11)%nat ->
    Z.testbit (raw_bits (rx_frame s')) (Z.of_nat k) = nth k bits false.
Proof.
  intros Hst Hno Hlen Hsa. cbn [sampled state_at]. cbv zeta.
  destruct (rx_assembly s env t Hst Hno) as (I1 & I2 & I3); [lia|].
  set (st := state_at request_cyc s env t) in *.
  set (bits := sampled request_cyc s env t) in *.
  destruct (rx_bit_step st (env t) I1) as [_ Hpulse].
  destruct Hpulse as (F & C & _); [assumption|].
  destruct C as [C1 C2]; [lia|].
  rewrite Hsa, length_app, Hlen, F. cbn [length].
  repeat split; try assumption.
  intros k Hk. rewrite shifted_in_bit by lia.
  destruct (Z.ltb_spec (Z.of_nat k) 10).
  - rewrite app_nth1 by lia. rewrite <- I3 by lia. f_equal. lia.
  - replace k with (length bits) by lia. now rewrite nth_middle.
Qed.

(** C6.  The BIT state of the receiver, in a reachable state.  The
    counter is between 0 and 10.  On a cycle with the [sample] pulse
    the frame moves one place down and the data bit enters at the
    top, bit 10; the counter goes up by one, except that from 10 it
    goes back to 0 and the receiver goes to FRAME.  Without the pulse
    nothing changes.  Counted from a state with the counter at 0, the
    receiver is in BIT with the counter equal to the number of pulses
    seen as long as these are at most ten, and the eleventh pulse
    takes it to FRAME with the counter at 0 and the eleven sampled
    bits in the frame, first bit lowest, so that the data field holds
    bits 1 to 8 with the least significant bit first. *)
Theorem rx_bit_shift (s : state) (env : nat -> inputs) :
  reachable request_cyc s -> rx_state s = Rx.BIT ->
  let at_ := fun t => state_at request_cyc s env t in
  let bits := fun t => sampled request_cyc s env t in
  0 <= rx_bitno s <= 10 /\
  (sample (bus s) = true ->
     (forall k, 0 <= k < 10 ->
        Z.testbit (raw_bits (rx_frame (at_ 1%nat))) k =
        Z.testbit (raw_bits (rx_frame s)) (k + 1)) /\
     Z.testbit (raw_bits (rx_frame (at_ 1%nat))) 10 = data_i (bus s) /\
     (rx_bitno s < 10 ->
        rx_state (at_ 1%nat) = Rx.BIT /\
        rx_bitno (at_ 1%nat) = rx_bitno s + 1) /\
     (rx_bitno s = 10 ->
        rx_state (at_ 1%nat) = Rx.FRAME /\ rx_bitno (at_ 1%nat) = 0)) /\
  (sample (bus s) = false ->
     rx_state (at_ 1%nat) = Rx.BIT /\ rx_frame (at_ 1%nat) = rx_frame s /\
     rx_bitno (at_ 1%nat) = rx_bitno s) /\
  (rx_bitno s = 0 -> forall t,
     ((length (bits t) <= 10)%nat ->
        rx_state (at_ t) = Rx.BIT /\
        rx_bitno (at_ t) = Z.of_nat (length (bits t))) /\
     (length (bits t) = 10%nat -> sample (bus (at_ t)) = true ->
        length (bits (S t)) = 11%nat /\
        rx_state (at_ (S t)) = Rx.FRAME /\ rx_bitno (at_ (S t)) = 0 /\
        (forall k, (k < 11)%nat ->
           Z.testbit (raw_bits (rx_frame (at_ (S t)))) (Z.of_nat k) =
           nth k (bits (S t)) false) /\
        (forall j, (j < 8)%nat ->
           Z.testbit (data (rx_frame (at_ (S t)))) (Z.of_nat j) =
           nth (S j) (bits (S t)) false))).
Proof.
  intros Hs Hst at_ bits.
  pose proof (invariant_reachable _ rx_count_ok_invariant s Hs) as Hc.
  unfold rx_count_ok in Hc. rewrite Hst in Hc.
  destruct (rx_bit_step s (env O) Hst) as [Hquiet Hpulse].
  split; [exact Hc|]. split; [|split].
  - intros Hsa. unfold at_. cbn [state_at].
    destruct (Hpulse Hsa) as (F & C10 & Cn). rewrite F.
    repeat split.
    + intros k Hk. rewrite shifted_in_bit by lia.
      destruct (Z.ltb_spec k 10); [reflexivity | lia].
    + now rewrite shifted_in_bit by lia.
    + apply Cn. lia.
    + destruct Cn as [_ Cn]; [lia|]. rewrite Cn. apply bitno_succ. lia.
    + now apply C10.
    + now apply C10.
  - intros Hsa. unfold at_. cbn [state_at]. now apply Hquiet.
  - intros Hno t. split.
    + intros Hlen.
      destruct (rx_assembly s env t Hst Hno Hlen) as (I1 & I2 & _).
      now split.
    + intros Hlen Hsa.
      destruct (rx_assembly_done s env t Hst Hno Hlen Hsa)
        as (D0 & D1 & D2 & D3).
      repeat split; try assumption.
      intros j Hj. rewrite <- D3 by lia.
      rewrite testbit_raw_bits by lia.
      destruct (Z.ltb_spec (Z.of_nat (S j)) 1); [lia|].
      destruct (Z.ltb_spec (Z.of_nat (S j)) 9); [|lia].
      f_equal. lia.
Qed.

End Invariants.

(** ** The theorems at concrete states *)

Ltac by_run := vm_compute; reflexivity.

Lemma reachable_after (request_cyc : Z) (n : nat) (ins : list inputs) :
  reachable request_cyc (after request_cyc n ins).
Proof. apply reachable_run. constructor. Qed.

Lemma mutual_exclusion_witness :
  let s := after 3 2 (host_sends sending true) in
  reachable 3 s /\ tx_state s = Tx.REQUEST /\ rx_state s = Rx.IDLE.
Proof.
  cbv zeta. split; [apply reachable_after|]. split; [by_run|].
  destruct (mutual_exclusion 3 _
              (reachable_after 3 2 (host_sends sending true)))
    as (_ & Htx & _).
  refine (Htx _). vm_compute. discriminate.
Defined.

Lemma open_drain_witness :
  let s := after 3 2 (host_sends sending true) in
  reachable 3 s /\ pads_clock_oe (bus s) = true /\ pads_clock_o (bus s) = false.
Proof.
  cbv zeta. split; [apply reachable_after|]. split; [by_run|].
  destruct (open_drain 3 _ (reachable_after 3 2 (host_sends sending true)))
    as (Hck & _).
  refine (Hck _). by_run.
Defined.

Lemma sample_setup_exclusive_witness :
  let s := after 3 92 (host_sends sending true) in
  reachable 3 s /\ sample (bus s) = true /\ setup (bus s) <> true.
Proof.
  cbv zeta. split; [apply reachable_after|]. split; [by_run|].
  intros H.
  refine (sample_setup_exclusive 3 _
            (reachable_after 3 92 (host_sends sending true)) (conj _ H)).
  by_run.
Defined.

Lemma edge_pulses_witness :
  let b := fun k => bus (state_at 3 reset (from (device_sends quiet 0xF4)) k) in
  reachable 3 reset /\
  clock_i (b 5%nat) = true /\ clock_i (b 6%nat) = false /\
  sample (b 8%nat) = true /\ sample (b 9%nat) = false.
Proof.
  cbv zeta. split; [constructor|].
  pose proof (edge_pulses 3 reset (from (device_sends quiet 0xF4)) 5
                (reach_reset 3)) as (_ & _ & H3 & _).
  pose proof (edge_pulses 3 reset (from (device_sends quiet 0xF4)) 8
                (reach_reset 3)) as (_ & _ & _ & H4 & _).
  cbv zeta in H3, H4. cbn [Nat.add] in H3, H4.
  assert (E1 : clock_i (bus (state_at 3 reset
                 (from (device_sends quiet 0xF4)) 5)) = true) by by_run.
  assert (E2 : clock_i (bus (state_at 3 reset
                 (from (device_sends quiet 0xF4)) 6)) = false) by by_run.
  split; [exact E1|]. split; [exact E2|].
  assert (S8 : sample (bus (state_at 3 reset
                 (from (device_sends quiet 0xF4)) 8)) = true).
  { exact (proj2 H3 (conj E1 E2)). }
  split; [exact S8 | exact (H4 S8)].
Defined.

Lemma request_to_send_timing_witness :
  let at_ := fun t => bus (state_at 5 reset (fun _ => sending) t) in
  clock_o (at_ 0%nat) = true /\ clock_o (at_ 1%nat) = false /\
  data_o (at_ 5%nat) = true /\ data_o (at_ 6%nat) = false.
Proof.
  cbv zeta.
  pose proof (request_to_send_timing 5 reset (fun _ => sending)
                ltac:(lia) (reach_reset 5)
                eq_refl eq_refl eq_refl eq_refl) as (H0 & Hlow & Hend).
  cbv zeta in H0, Hlow, Hend.
  change (Z.to_nat 5) with 5%nat in Hlow, Hend.
  destruct (Hlow 1%nat ltac:(lia)) as (_ & L1 & _).
  destruct (Hlow 5%nat ltac:(lia)) as (_ & _ & L5).
  destruct Hend as (_ & _ & L6).
  split; [exact (proj1 H0)|]. split; [exact L1|]. split; [exact L5 | exact L6].
Defined.

(** The acknowledged case on a run: the peripheral pulls the data line
    low, and the byte is read from the outbound FIFO. *)
Lemma tx_ack_step_acknowledged :
  let s := after 3 92 (host_sends sending true) in
  tx_state s = Tx.ACK /\ sample (bus s) = true /\ data_i (bus s) = false /\
  out_fifo_re (strobe 3 s sending) = true /\
  tx_state (step 3 s sending) = Tx.IDLE_WAIT.
Proof.
  cbv zeta.
  assert (Hst : tx_state (after 3 92 (host_sends sending true)) = Tx.ACK)
    by by_run.
  assert (Hsa : sample (bus (after 3 92 (host_sends sending true))) = true)
    by by_run.
  assert (Hdi : data_i (bus (after 3 92 (host_sends sending true))) = false)
    by by_run.
  destruct (tx_ack_step 3 _ sending Hst) as [Hpulse _].
  destruct (Hpulse Hsa) as (Hre & _ & Hnext & _).
  split; [exact Hst|]. split; [exact Hsa|]. split; [exact Hdi|].
  split; [exact (proj2 Hre Hdi) | exact Hnext].
Defined.

(** C2, refuted as the specification states it.  The peripheral has
    sent byte F4 with a correct frame while the inbound FIFO is full.
    The receiver is in FRAME with a frame that [check_frame] accepts;
    in the next cycle, the FIFO still being full, it is again in FRAME
    and not in IDLE-WAIT, and the byte is not lost: one cycle later,
    with room in the FIFO, it is written. *)
Lemma rx_frame_full_not_dropped :
  let s := after 3 89 (device_sends fifo_full 0xF4) in
  reachable 3 s /\
  rx_state s = Rx.FRAME /\ check_frame (rx_frame s) = true /\
  in_fifo_writable fifo_full = false /\
  rx_state (step 3 s fifo_full) = Rx.FRAME /\
  rx_state (step 3 s fifo_full) <> Rx.IDLE_WAIT /\
  in_fifo_we (strobe 3 (step 3 s fifo_full) quiet) = true /\
  in_fifo_din (strobe 3 (step 3 s fifo_full) quiet) = 0xF4.
Proof.
  cbv zeta. split; [apply reachable_after|].
  split; [by_run|]. split; [by_run|]. split; [by_run|].
  split; [by_run|]. split; [vm_compute; discriminate|].
  split; by_run.
Qed.

Lemma rx_frame_waits_for_space_witness :
  let s := after 3 89 (device_sends fifo_full 0xF4) in
  let env := from [fifo_full; fifo_full; quiet] in
  rx_state s = Rx.FRAME /\
  rx_state (state_at 3 s env 2) = Rx.FRAME /\
  in_fifo_we (strobe 3 (state_at 3 s env 2) (env 2%nat)) = true /\
  in_fifo_din (strobe 3 (state_at 3 s env 2) (env 2%nat)) =
    data (rx_frame s) /\
  rx_state (state_at 3 s env 3) = Rx.IDLE_WAIT.
Proof.
  cbv zeta.
  assert (Hst : rx_state (after 3 89 (device_sends fifo_full 0xF4)) = Rx.FRAME)
    by by_run.
  destruct (rx_frame_waits_for_space 3 _ (from [fifo_full; fifo_full; quiet])
              2 Hst) as [_ Hok].
  destruct Hok as [Hwait Hgo]; [by_run | |].
  { intros [|[|t]] Ht; try reflexivity. lia. }
  destruct (Hwait 1%nat) as (_ & Hs & _); [lia|].
  destruct Hgo as (G1 & G2 & G3); [reflexivity|].
  split; [exact Hst|]. split; [exact Hs|].
  split; [exact G1|]. split; [exact G2 | exact G3].
Defined.

Lemma rx_bit_shift_witness :
  let s := after 3 7 (device_sends quiet 0xF4) in
  let env := from (skipn 7 (device_sends quiet 0xF4)) in
  reachable 3 s /\ rx_state s = Rx.BIT /\ rx_bitno s = 0 /\
  rx_state (state_at 3 s env 82) = Rx.FRAME /\
  rx_bitno (state_at 3 s env 82) = 0.
Proof.
  cbv zeta.
  assert (Hst : rx_state (after 3 7 (device_sends quiet 0xF4)) = Rx.BIT)
    by by_run.
  assert (Hno : rx_bitno (after 3 7 (device_sends quiet 0xF4)) = 0)
    by by_run.
  destruct (rx_bit_shift 3 _ (from (skipn 7 (device_sends quiet 0xF4)))
              (reachable_after 3 7 _) Hst) as (_ & _ & _ & Hrun).
  destruct (Hrun Hno 81%nat) as [_ Hdone].
  destruct Hdone as (_ & Hfr & Hz & _); [by_run | by_run |].
  split; [apply reachable_after|].
  split; [exact Hst|]. split; [exact Hno|]. split; [exact Hfr | exact Hz].
Defined.

(** * Further properties of the design *)

(** ** The frame layout *)

Lemma trunc_range (w x : Z) : 0 <= w -> 0 <= trunc w x < 2 ^ w.
Proof. intros Hw. unfold trunc. apply Z.mod_pos_bound. lia. Qed.

Lemma slice_range (x lo hi : Z) :
  lo <= hi -> 0 <= slice x lo hi < 2 ^ (hi - lo).
Proof. intros H. unfold slice. apply trunc_range. lia. Qed.

Lemma wf_set_raw_bits (v : Z) : wf_frame (set_raw_bits v).
Proof.
  unfold wf_frame, set_raw_bits; cbn [start data parity stop].
  pose proof (slice_range v 0 1 ltac:(lia)) as H1.
  pose proof (slice_range v 1 9 ltac:(lia)) as H2.
  pose proof (slice_range v 9 10 ltac:(lia)) as H3.
  pose proof (slice_range v 10 11 ltac:(lia)) as H4.
  change (2 ^ (1 - 0)) with 2 in H1. change (2 ^ (9 - 1)) with 256 in H2.
  change (2 ^ (10 - 9)) with 2 in H3. change (2 ^ (11 - 10)) with 2 in H4.
  repeat split; lia.
Qed.

Lemma wf_prepare_frame (d : Z) : wf_frame (prepare_frame d).
Proof.
  unfold wf_frame, prepare_frame; cbn [start data parity stop].
  pose proof (trunc_range 8 d ltac:(lia)) as H.
  change (2 ^ 8) with 256 in H. rewrite parity_expr.
  unfold odd_parity.
  destruct (negb (xor_reduction d)); cbn [Z.b2z]; repeat split; lia.
Qed.

Lemma testbit_above (w x n : Z) :
  0 <= x < 2 ^ w -> 0 <= w <= n -> Z.testbit x n = false.
Proof.
  intros Hx Hn. rewrite <- (trunc_small w x Hx), testbit_trunc by lia.
  destruct (Z.ltb_spec n w); [lia | reflexivity].
Qed.

Lemma raw_bits_range (f : frame) : 0 <= raw_bits f < 2 ^ 11.
Proof.
  assert (H : raw_bits f = trunc 11 (raw_bits f)).
  { apply Z.bits_inj'. intros n Hn. rewrite testbit_trunc by lia.
    destruct (Z.ltb_spec n 11); [reflexivity|]. cbn [andb].
    rewrite testbit_raw_bits by lia.
    destruct (Z.ltb_spec n 1), (Z.ltb_spec n 9), (Z.ltb_spec n 10),
      (Z.ltb_spec n 11); reflexivity || lia. }
  rewrite H. apply trunc_range. lia.
Qed.

Ltac field_bits w :=
  apply Z.bits_inj'; intros n Hn;
  rewrite testbit_slice by lia; rewrite testbit_raw_bits by lia;
  cbn [start data parity stop];
  repeat match goal with
    | |- context [?a <? ?b] => destruct (Z.ltb_spec a b); try lia
    end;
  cbn [andb];
  first [ f_equal; lia
        | symmetry; apply (testbit_above w); lia ].

Lemma set_raw_bits_raw_bits (f : frame) :
  wf_frame f -> set_raw_bits (raw_bits f) = f.
Proof.
  intros (Hs & Hd & Hp & Ht).
  destruct f as [s d p t]; cbn [start data parity stop] in *.
  unfold set_raw_bits. f_equal.
  - field_bits 1.
  - field_bits 8.
  - field_bits 1.
  - field_bits 1.
Qed.

(** X1.  The record and its raw bits.  Writing the raw bits of a frame
    whose fields fit the layout back into a frame gives the same frame;
    reading back a vector written into a frame gives its low eleven
    bits; and the raw bits are always below 2^11. *)
Theorem frame_raw_bits_round_trip (f : frame) (v : Z) :
  wf_frame f ->
  set_raw_bits (raw_bits f) = f /\
  raw_bits (set_raw_bits v) = v mod 2 ^ 11 /\
  wf_frame (set_raw_bits v) /\
  0 <= raw_bits f < 2 ^ 11.
Proof.
  intros Hf. split; [now apply set_raw_bits_raw_bits|].
  split; [apply raw_bits_set_raw_bits|].
  split; [apply wf_set_raw_bits | apply raw_bits_range].
Qed.

(** ** The frame codec, further *)

Lemma prepare_frame_of_data (f : frame) :
  wf_frame f ->
  start f = 0 -> parity f = odd_parity (data f) -> stop f = 1 ->
  f = prepare_frame (data f).
Proof.
  intros (_ & Hd & _ & _) Hs Hp Ht.
  destruct f as [s d p t]; cbn [start data parity stop] in *.
  unfold prepare_frame. rewrite parity_expr, trunc_small by (cbn; lia).
  congruence.
Qed.

Lemma check_frame_prepared (d : Z) :
  0 <= d < 256 -> check_frame (prepare_frame d) = true.
Proof.
  intros Hd. apply check_frame_true.
  unfold prepare_frame; cbn [start data parity stop].
  rewrite parity_expr, trunc_small by (cbn; lia). now repeat split.
Qed.

(** X2.  The frames that [check_frame] accepts are exactly the frames
    that [prepare_frame] builds: a frame whose fields fit the layout is
    accepted if and only if it is the prepared frame of its own data
    byte.  So a data byte has one valid frame. *)
Theorem valid_frame_is_prepared (f : frame) :
  wf_frame f ->
  (check_frame f = true <-> f = prepare_frame (data f)).
Proof.
  intros Hf. split.
  - intros H. apply check_frame_true in H. destruct H as (Hs & Hp & Ht).
    now apply prepare_frame_of_data.
  - intros E. rewrite E. apply check_frame_prepared. apply Hf.
Qed.

(** X3.  Odd parity.  For a frame whose fields fit the layout, with
    start 0 and stop 1, [check_frame] accepts exactly when the number of
    ones among the eight data bits and the parity bit is odd. *)
Theorem check_frame_odd_ones (f : frame) :
  wf_frame f -> start f = 0 -> stop f = 1 ->
  (check_frame f = true <-> Z.odd (ones (data f) + parity f) = true).
Proof.
  intros (_ & _ & Hp & _) Hs Ht.
  rewrite check_frame_true.
  pose proof (odd_parity_is_odd (data f)) as Hodd.
  rewrite Z.odd_add in Hodd |- *.
  assert (Hq : odd_parity (data f) = 0 \/ odd_parity (data f) = 1).
  { unfold odd_parity. destruct (negb _); cbn; lia. }
  assert (Hr : parity f = 0 \/ parity f = 1) by lia.
  destruct Hq as [Hq | Hq], Hr as [Hr | Hr]; rewrite Hq in *; rewrite Hr;
    cbn [Z.odd] in *; destruct (Z.odd (ones (data f))); cbn in *;
    intuition (try lia; try congruence).
Qed.

Lemma single_flips_rejected :
  forallb (fun b =>
    forallb (fun k =>
      negb (check_frame (set_raw_bits
              (Z.lxor (raw_bits (prepare_frame (Z.of_nat b)))
                      (Z.shiftl 1 (Z.of_nat k))))))
      (seq 0 11))
    (seq 0 256) = true.
Proof. vm_compute. reflexivity. Qed.

(** X4.  Single-bit errors are detected.  Inverting any one of the
    eleven bits of a frame that [check_frame] accepts gives a frame that
    it rejects. *)
Theorem single_bit_error_detected (f : frame) (k : Z) :
  wf_frame f -> check_frame f = true -> 0 <= k < 11 ->
  check_frame (set_raw_bits (Z.lxor (raw_bits f) (Z.shiftl 1 k))) = false.
Proof.
  intros Hf Hok Hk.
  pose proof Hf as (_ & Hd & _ & _).
  apply check_frame_true in Hok. destruct Hok as (Hs & Hp & Ht).
  rewrite (prepare_frame_of_data f Hf Hs Hp Ht).
  pose proof single_flips_rejected as H.
  rewrite forallb_forall in H.
  pose proof (H (Z.to_nat (data f)) ltac:(apply in_seq; lia)) as H1.
  cbv beta in H1. rewrite forallb_forall in H1.
  pose proof (H1 (Z.to_nat k) ltac:(apply in_seq; lia)) as H2.
  cbv beta in H2. rewrite !Z2Nat.id in H2 by lia.
  now apply negb_true_iff in H2.
Qed.

(** ** Lists of bits and frames *)

Lemma testbit_bits_value (l : list bool) (n : Z) :
  0 <= n -> Z.testbit (bits_value l) n = nth (Z.to_nat n) l false.
Proof.
  revert n. induction l as [|b t IH]; intros n Hn; cbn [bits_value].
  - rewrite Z.testbit_0_l. now destruct (Z.to_nat n).
  - rewrite Z.add_comm.
    destruct (Z.eq_dec n 0) as [-> | Hne].
    + apply Z.testbit_0_r.
    + replace n with (Z.succ (n - 1)) at 1 by lia.
      rewrite Z.testbit_succ_r by lia. rewrite IH by lia.
      replace (Z.to_nat n) with (S (Z.to_nat (n - 1))) by lia.
      reflexivity.
Qed.

Lemma nth_frame_bits (f : frame) (k : nat) :
  nth k (frame_bits f) false =
  (k <? 11)%nat && Z.testbit (raw_bits f) (Z.of_nat k).
Proof.
  unfold frame_bits.
  destruct (Nat.ltb_spec k 11); cbn [andb].
  - rewrite (nth_indep _ false (Z.testbit (raw_bits f) (Z.of_nat 0)))
      by (rewrite length_map, length_seq; lia).
    rewrite (map_nth (fun k => Z.testbit (raw_bits f) (Z.of_nat k))).
    now rewrite seq_nth by lia.
  - apply nth_overflow. rewrite length_map, length_seq. lia.
Qed.

Lemma bits_value_frame_bits (f : frame) :
  bits_value (frame_bits f) = raw_bits f.
Proof.
  apply Z.bits_inj'. intros n Hn.
  rewrite testbit_bits_value, nth_frame_bits by lia.
  rewrite Z2Nat.id by lia.
  destruct (Nat.ltb_spec (Z.to_nat n) 11); cbn [andb]; [reflexivity|].
  symmetry. apply (testbit_above 11); [apply raw_bits_range | lia].
Qed.

Lemma frame_of_frame_bits (f : frame) :
  wf_frame f -> frame_of_bits (frame_bits f) = f.
Proof.
  intros Hf. unfold frame_of_bits.
  rewrite bits_value_frame_bits. now apply set_raw_bits_raw_bits.
Qed.

Lemma frame_from_bits (f : frame) (l : list bool) :
  wf_frame f -> length l = 11%nat ->
  (forall k, (k < 11)%nat ->
     Z.testbit (raw_bits f) (Z.of_nat k) = nth k l false) ->
  f = frame_of_bits l.
Proof.
  intros Hf Hlen Hbits. unfold frame_of_bits.
  rewrite <- (set_raw_bits_raw_bits f Hf) at 1. f_equal.
  apply Z.bits_inj'. intros n Hn. rewrite testbit_bits_value by lia.
  destruct (Z.ltb_spec n 11).
  - rewrite <- Hbits by lia. now rewrite Z2Nat.id by lia.
  - rewrite nth_overflow by lia.
    apply (testbit_above 11); [apply raw_bits_range | lia].
Qed.

Section Further.

Variable request_cyc : Z.

(** ** Registers stay within their signals *)

Lemma timer_w_pos : 0 < timer_w request_cyc.
Proof.
  unfold timer_w, bits_for.
  pose proof (Z.log2_nonneg (request_cyc - 1)). lia.
Qed.

Lemma regs_in_range_invariant :
  invariant request_cyc (regs_in_range request_cyc).
Proof.
  pose proof timer_w_pos as Hw.
  split.
  - unfold regs_in_range, reset, reset_frame, wf_frame; cbn.
    pose proof (Z.pow_pos_nonneg 2 (timer_w request_cyc) ltac:(lia) ltac:(lia)).
    repeat split; lia.
  - intros s i. unfold regs_in_range. destruct_state s.
    intros (Hrb & Htb & Htt & Hrf & Htf).
    destruct rs, ts; step_cases;
      refine (conj _ (conj _ (conj _ (conj _ _))));
      try assumption;
      try (rewrite bitno_succ by lia; lia);
      try lia;
      try (apply trunc_range; lia);
      try apply wf_set_raw_bits;
      try apply wf_prepare_frame.
Qed.

(** X5.  In every reachable state each register holds a value of its
    signal: both bit counters are between 0 and 10 (declared with
    [max=11]), the timer is within the width of its signal, and the
    fields of both frames fit the layout.  No counter ever wraps. *)
Theorem registers_in_range (s : state) :
  reachable request_cyc s -> regs_in_range request_cyc s.
Proof. apply invariant_reachable, regs_in_range_invariant. Qed.

(** ** The lines and the transmitter *)

(** X6.  In every reachable state the clock line is pulled low
    exactly while the transmitter is in REQUEST, the data line can be
    low only while it is in BIT, and while the receiver is outside IDLE
    the controller drives neither line. *)
Theorem lines_follow_transmitter (s : state) :
  reachable request_cyc s ->
  (clock_o (bus s) = false <-> tx_state s = Tx.REQUEST) /\
  (data_o (bus s) = false -> tx_state s = Tx.BIT) /\
  (rx_state s <> Rx.IDLE ->
     pads_clock_oe (bus s) = false /\ pads_data_oe (bus s) = false).
Proof.
  intros Hs.
  destruct (invariant_reachable _ _ (tx_lines_ok_invariant _) s Hs) as [Hc Hd].
  pose proof (invariant_reachable _ _ (one_idle_invariant _) s Hs) as Hone.
  unfold pads_clock_oe, pads_data_oe. rewrite Hc.
  destruct (tx_state s) eqn:Ets; cbn [Tx.eqb negb] in *;
    (split; [split; congruence|]);
    (split; [try reflexivity; destruct Hd as [_ Hd]; congruence|]);
    intros Hrx; destruct Hone as [? | ?]; try congruence.
  destruct Hd as [_ Hd]. now rewrite Hd.
Qed.

(** ** From the pads to the pulses *)

(** X7.  Latency of the synchronisers and of the edge detector, from
    any state and for any inputs.  The synchronised levels are the pad
    levels of two cycles before.  [sample] is high in a cycle exactly
    when the clock pad was high five cycles before and low four cycles
    before, and [setup] when it was low and then high; the data level
    read in that cycle is the data pad two cycles after the clock pad
    changed. *)
Theorem pad_to_pulse_latency (s : state) (env : nat -> inputs) (t : nat) :
  let b := fun k => bus (state_at request_cyc s env k) in
  clock_i (b (2 + t)%nat) = pads_clock_i (env t) /\
  data_i (b (2 + t)%nat) = pads_data_i (env t) /\
  sample (b (5 + t)%nat) =
    pads_clock_i (env t) && negb (pads_clock_i (env (1 + t)%nat)) /\
  setup (b (5 + t)%nat) =
    negb (pads_clock_i (env t)) && pads_clock_i (env (1 + t)%nat) /\
  data_i (b (5 + t)%nat) = pads_data_i (env (3 + t)%nat).
Proof.
  intros b.
  assert (Hstep : forall k,
    clock_m (b (S k)) = pads_clock_i (env k) /\
    clock_i (b (S k)) = clock_m (b k) /\
    data_m (b (S k)) = pads_data_i (env k) /\
    data_i (b (S k)) = data_m (b k) /\
    clock_s (b (S k)) = clock_i (b k) /\
    clock_r (b (S k)) = clock_s (b k) /\
    sample (b (S k)) = clock_r (b k) && negb (clock_s (b k)) /\
    setup (b (S k)) = negb (clock_r (b k)) && clock_s (b k)).
  { intros k. unfold b. cbn [state_at]. apply bus_step. }
  cbn [Nat.add].
  destruct (Hstep t) as (M0 & _ & D0 & _).
  destruct (Hstep (S t)) as (M1 & I1 & _ & J1 & _).
  destruct (Hstep (S (S t))) as (_ & I2 & _ & _ & S2 & _).
  destruct (Hstep (S (S (S t)))) as (_ & _ & D3 & _ & S3 & R3 & _).
  destruct (Hstep (S (S (S (S t))))) as (_ & _ & _ & J4 & _ & _ & A4 & U4).
  rewrite A4, U4, R3, S3, S2, I2, I1, J1, J4, D3, M1, M0, D0.
  repeat split.
Qed.

(** ** The strobes towards the FIFOs *)

Lemma in_fifo_we_source (s : state) (i : inputs) :
  in_fifo_we (strobe request_cyc s i) = true ->
  rx_state s = Rx.FRAME /\ check_frame (rx_frame s) = true /\
  in_fifo_writable i = true /\
  in_fifo_din (strobe request_cyc s i) = data (rx_frame s).
Proof.
  destruct_state s.
  destruct rs, ts; step_cases; intros H; try discriminate H;
    repeat split; congruence.
Qed.

Lemma out_fifo_re_source (s : state) (i : inputs) :
  out_fifo_re (strobe request_cyc s i) = true ->
  tx_state s = Tx.ACK /\ sample (bus s) = true /\ data_i (bus s) = false.
Proof.
  destruct_state s.
  destruct rs, ts, sa, di; step_cases; intros H; try discriminate H;
    repeat split; congruence.
Qed.

(** X8.  Writes to the inbound FIFO.  In a reachable state the write
    strobe is asserted only in FRAME, with a frame that [check_frame]
    accepts, in a cycle in which the FIFO is writable; the value
    written is the data field of that frame, a byte; and the strobe is
    not asserted again in the next cycle, whatever the inputs, because
    the receiver has left FRAME: a frame is written at most once and
    never into a full FIFO. *)
Theorem in_fifo_write_discipline (s : state) (i j : inputs) :
  reachable request_cyc s ->
  in_fifo_we (strobe request_cyc s i) = true ->
  rx_state s = Rx.FRAME /\ check_frame (rx_frame s) = true /\
  in_fifo_writable i = true /\
  in_fifo_din (strobe request_cyc s i) = data (rx_frame s) /\
  0 <= in_fifo_din (strobe request_cyc s i) < 256 /\
  rx_state (step request_cyc s i) = Rx.IDLE_WAIT /\
  in_fifo_we (strobe request_cyc (step request_cyc s i) j) = false.
Proof.
  intros Hs Hwe.
  destruct (in_fifo_we_source s i Hwe) as (Hst & Hok & Hw & Hd).
  destruct (invariant_reachable _ _ regs_in_range_invariant s Hs)
    as (_ & _ & _ & Hrf & _).
  destruct (rx_frame_step request_cyc s i Hst) as (_ & _ & Hgo & _).
  destruct (Hgo Hok Hw) as (_ & _ & Hnext).
  repeat split; try assumption; try (rewrite Hd; apply Hrf).
  destruct (in_fifo_we (strobe request_cyc (step request_cyc s i) j)) eqn:E;
    [|reflexivity].
  apply in_fifo_we_source in E. destruct E as (E & _). congruence.
Qed.

(** X9.  Reads of the outbound FIFO.  The read strobe is asserted
    only in ACK, on a [sample] pulse with the data line low, and never
    in two consecutive cycles: a transmitted byte is consumed at most
    once, and only after it was acknowledged. *)
Theorem out_fifo_read_discipline (s : state) (i j : inputs) :
  out_fifo_re (strobe request_cyc s i) = true ->
  tx_state s = Tx.ACK /\ sample (bus s) = true /\ data_i (bus s) = false /\
  tx_state (step request_cyc s i) = Tx.IDLE_WAIT /\
  out_fifo_re (strobe request_cyc (step request_cyc s i) j) = false.
Proof.
  intros Hre.
  destruct (out_fifo_re_source s i Hre) as (Hst & Hsa & Hdi).
  assert (Hnext : tx_state (step request_cyc s i) = Tx.IDLE_WAIT).
  { revert Hst Hsa. destruct_state s. intros -> ->.
    destruct rs; step_cases; reflexivity. }
  repeat split; try assumption.
  destruct (out_fifo_re (strobe request_cyc (step request_cyc s i) j)) eqn:E;
    [|reflexivity].
  apply out_fifo_re_source in E. destruct E as (E & _). congruence.
Qed.

(** ** The IDLE-WAIT states *)

Lemma idle_wait_step (s : state) (i : inputs) :
  (rx_state s = Rx.IDLE_WAIT ->
     rx_state (step request_cyc s i) =
     if clock_i (bus s) then Rx.IDLE else Rx.IDLE_WAIT) /\
  (tx_state s = Tx.IDLE_WAIT ->
     tx_state (step request_cyc s i) =
     if clock_i (bus s) then Tx.IDLE else Tx.IDLE_WAIT).
Proof.
  destruct_state s. split; intros ->.
  - destruct ts, ci; step_cases; congruence.
  - destruct rs, ci; step_cases; congruence.
Qed.

(** X10.  Resynchronisation.  A machine in IDLE-WAIT stays there for
    as long as the synchronised clock reads low, however long, and goes
    to IDLE in the first cycle in which it reads high; it reaches no
    other state from IDLE-WAIT. *)
Theorem idle_wait_release (s : state) (env : nat -> inputs) (n : nat) :
  let at_ := fun t => state_at request_cyc s env t in
  (forall t, (t < n)%nat -> clock_i (bus (at_ t)) = false) ->
  clock_i (bus (at_ n)) = true ->
  (rx_state s = Rx.IDLE_WAIT ->
     (forall t, (t <= n)%nat -> rx_state (at_ t) = Rx.IDLE_WAIT) /\
     rx_state (at_ (S n)) = Rx.IDLE) /\
  (tx_state s = Tx.IDLE_WAIT ->
     (forall t, (t <= n)%nat -> tx_state (at_ t) = Tx.IDLE_WAIT) /\
     tx_state (at_ (S n)) = Tx.IDLE).
Proof.
  intros at_ Hlow Hhigh. split; intros Hst.
  - assert (Hstay : forall t, (t <= n)%nat -> rx_state (at_ t) = Rx.IDLE_WAIT).
    { induction t as [|t IH]; intros Ht; [exact Hst|].
      unfold at_ in *. cbn [state_at].
      destruct (idle_wait_step (state_at request_cyc s env t) (env t))
        as [Hrx _].
      rewrite Hrx by (apply IH; lia). rewrite Hlow by lia. reflexivity. }
    split; [exact Hstay|].
    unfold at_ in *. cbn [state_at].
    destruct (idle_wait_step (state_at request_cyc s env n) (env n))
      as [Hrx _].
    rewrite Hrx by (apply Hstay; lia). now rewrite Hhigh.
  - assert (Hstay : forall t, (t <= n)%nat -> tx_state (at_ t) = Tx.IDLE_WAIT).
    { induction t as [|t IH]; intros Ht; [exact Hst|].
      unfold at_ in *. cbn [state_at].
      destruct (idle_wait_step (state_at request_cyc s env t) (env t))
        as [_ Htx].
      rewrite Htx by (apply IH; lia). rewrite Hlow by lia. reflexivity. }
    split; [exact Hstay|].
    unfold at_ in *. cbn [state_at].
    destruct (idle_wait_step (state_at request_cyc s env n) (env n))
      as [_ Htx].
    rewrite Htx by (apply Hstay; lia). now rewrite Hhigh.
Qed.

(** ** The request, further *)

Lemma trunc_minus_one (w : Z) : 0 <= w -> trunc w (0 - 1) = 2 ^ w - 1.
Proof.
  intros Hw. unfold trunc.
  pose proof (Z.pow_pos_nonneg 2 w ltac:(lia) Hw) as Hp.
  symmetry. apply (Z.mod_unique _ _ (-1)); lia.
Qed.

Lemma tx_request_fire (s : state) (i : inputs) :
  tx_state s = Tx.REQUEST -> tx_timer s = 0 ->
  let s' := step request_cyc s i in
  tx_timer s' = 2 ^ timer_w request_cyc - 1 /\
  tx_bitno s' = tx_bitno s.
Proof.
  destruct_state s. intros -> ->.
  pose proof timer_w_pos.
  destruct rs; step_cases; try congruence;
    (split; [apply trunc_minus_one; lia | reflexivity]).
Qed.

Lemma xor_reduction_trunc (d : Z) :
  xor_reduction (trunc 8 d) = xor_reduction d.
Proof.
  unfold xor_reduction. cbn [map fold_right].
  rewrite !testbit_trunc by lia. reflexivity.
Qed.

Lemma check_frame_prepared_any (d : Z) : check_frame (prepare_frame d) = true.
Proof.
  apply check_frame_true.
  unfold prepare_frame; cbn [start data parity stop].
  rewrite parity_expr. unfold odd_parity.
  now rewrite xor_reduction_trunc.
Qed.

(** X11.  The request in detail.  When the transmitter starts a
    request from a reachable state ([request_cyc >= 1]), the timer reads
    [request_cyc - k] in cycle [k] of the request, for [k] from 1 to
    [request_cyc].  In the cycle after, the transmitter is in BIT with
    the counter at 0 and the frame prepared from the byte that the
    outbound FIFO presented in the last cycle of the request (not in
    the cycle in which the request started); [check_frame] accepts that
    frame; and the timer, decremented once more at zero, has wrapped
    to [2 ^ width - 1]. *)
Theorem request_in_detail (s : state) (env : nat -> inputs) :
  1 <= request_cyc ->
  reachable request_cyc s ->
  tx_state s = Tx.IDLE -> rx_state s = Rx.IDLE ->
  clock_i (bus s) = true -> out_fifo_readable (env O) = true ->
  let at_ := fun t => state_at request_cyc s env t in
  let n := Z.to_nat request_cyc in
  (forall k, (1 <= k <= n)%nat ->
     tx_timer (at_ k) = request_cyc - Z.of_nat k) /\
  tx_state (at_ (S n)) = Tx.BIT /\
  tx_bitno (at_ (S n)) = 0 /\
  tx_frame (at_ (S n)) = prepare_frame (out_fifo_dout (env n)) /\
  data (tx_frame (at_ (S n))) = out_fifo_dout (env n) mod 2 ^ 8 /\
  check_frame (tx_frame (at_ (S n))) = true /\
  tx_timer (at_ (S n)) = 2 ^ timer_w request_cyc - 1.
Proof.
  intros Hrc Hs Htx Hrx Hck Hrd at_ n.
  destruct (tx_idle_step request_cyc s (env O) Htx Hrx Hck Hrd)
    as (R1 & R2 & _ & _).
  pose proof (timer_fits request_cyc Hrc) as Hfit.
  rewrite trunc_small in R2 by exact Hfit.
  assert (Hn : (n = S (Z.to_nat (request_cyc - 1)))%nat) by (unfold n; lia).
  destruct (request_countdown request_cyc (Z.to_nat (request_cyc - 1))
              (step request_cyc s (env O)) (fun k => env (S k)) R1)
    as [Hwait Hfire]; [lia | lia |].
  assert (Hlast : tx_state (at_ n) = Tx.REQUEST /\ tx_timer (at_ n) = 0).
  { unfold at_. rewrite Hn, state_at_front.
    destruct (Hwait (Z.to_nat (request_cyc - 1))) as (W1 & W2 & _); [lia|].
    split; [exact W1|]. rewrite W2. lia. }
  destruct Hlast as [L1 L2].
  assert (Hbit0 : tx_bitno (at_ n) = 0).
  { pose proof (invariant_reachable _ _ (tx_lines_ok_invariant _) (at_ n)
                  (reachable_state_at request_cyc s env n Hs)) as [_ Hb].
    rewrite L1 in Hb. apply Hb. }
  destruct (tx_request_fire (at_ n) (env n) L1 L2) as [T1 T2].
  assert (Hfr : tx_frame (at_ (S n)) = prepare_frame (out_fifo_dout (env n))).
  { unfold at_. rewrite Hn, state_at_front.
    destruct Hfire as (_ & _ & _ & F). rewrite F. f_equal. }
  split.
  - intros k Hk. destruct k as [|k]; [lia|].
    unfold at_. rewrite state_at_front.
    destruct (Hwait k) as (_ & W2 & _); [lia|]. rewrite W2. lia.
  - split.
    { unfold at_. rewrite Hn, state_at_front. apply Hfire. }
    split; [unfold at_ in *; cbn [state_at]; congruence|].
    split; [exact Hfr|].
    split; [rewrite Hfr; reflexivity|].
    split; [rewrite Hfr; apply check_frame_prepared_any|].
    exact T1.
Qed.

(** ** Reception, end to end *)

(** The frame in FRAME is made of the eleven sampled bits and of
    nothing else. *)
Lemma rx_frame_of_sampled (s : state) (env : nat -> inputs) (t : nat) :
  rx_state s = Rx.BIT -> rx_bitno s = 0 ->
  sample (bus (state_at request_cyc s env t)) = true ->
  length (sampled request_cyc s env (S t)) = 11%nat ->
  rx_state (state_at request_cyc s env (S t)) = Rx.FRAME /\
  rx_frame (state_at request_cyc s env (S t)) =
    frame_of_bits (sampled request_cyc s env (S t)).
Proof.
  intros Hst Hno Hsa Hlen.
  assert (Hten : length (sampled request_cyc s env t) = 10%nat).
  { cbn [sampled] in Hlen. cbv zeta in Hlen.
    rewrite Hsa, length_app in Hlen. cbn [length] in Hlen. lia. }
  destruct (rx_assembly request_cyc s env t Hst Hno) as (I1 & _); [lia|].
  destruct (rx_assembly_done request_cyc s env t Hst Hno Hten Hsa)
    as (_ & D1 & _ & D3).
  split; [exact D1|].
  apply frame_from_bits; [| exact Hlen | exact D3].
  cbn [state_at].
  destruct (rx_bit_step request_cyc _ (env t) I1) as [_ Hpulse].
  destruct (Hpulse Hsa) as (F & _). rewrite F. apply wf_set_raw_bits.
Qed.

Lemma length_frame_bits (f : frame) : length (frame_bits f) = 11%nat.
Proof. unfold frame_bits. now rewrite length_map, length_seq. Qed.

Lemma length_flip_nth (k : nat) (l : list bool) :
  length (flip_nth k l) = length l.
Proof.
  revert k. induction l as [|x t IH]; intros [|k]; cbn; auto.
Qed.

(** X12.  A byte received.  The receiver is in BIT with its counter
    at 0; the bits it samples are, in order, the eleven bits of the
    frame of a byte [b], the last of them in cycle [t].  Then in the
    next cycle it is in FRAME holding exactly that frame, and if the
    inbound FIFO is writable in that cycle it writes [b] and goes to
    IDLE-WAIT. *)
Theorem rx_delivers_byte (s : state) (env : nat -> inputs) (t : nat) (b : Z) :
  rx_state s = Rx.BIT -> rx_bitno s = 0 -> 0 <= b < 256 ->
  sample (bus (state_at request_cyc s env t)) = true ->
  sampled request_cyc s env (S t) = frame_bits (prepare_frame b) ->
  let s1 := state_at request_cyc s env (S t) in
  rx_state s1 = Rx.FRAME /\
  rx_frame s1 = prepare_frame b /\
  (in_fifo_writable (env (S t)) = true ->
     in_fifo_we (strobe request_cyc s1 (env (S t))) = true /\
     in_fifo_din (strobe request_cyc s1 (env (S t))) = b /\
     rx_state (state_at request_cyc s env (S (S t))) = Rx.IDLE_WAIT).
Proof.
  intros Hst Hno Hb Hsa Hbits s1.
  destruct (rx_frame_of_sampled s env t Hst Hno Hsa) as [F1 F2].
  { rewrite Hbits. apply length_frame_bits. }
  fold s1 in F1, F2.
  assert (Hfr : rx_frame s1 = prepare_frame b).
  { rewrite F2, Hbits. apply frame_of_frame_bits, wf_prepare_frame. }
  split; [exact F1|]. split; [exact Hfr|].
  intros Hw.
  destruct (rx_frame_step request_cyc s1 (env (S t)) F1) as (_ & _ & Hgo & _).
  rewrite Hfr in Hgo.
  destruct (Hgo (check_frame_prepared b Hb) Hw) as (G1 & G2 & G3).
  split; [exact G1|]. split; [|exact G3].
  rewrite G2. unfold prepare_frame; cbn [data].
  apply trunc_small. cbn. lia.
Qed.

Lemma flipped_frames_rejected :
  forallb (fun b =>
    forallb (fun k =>
      negb (check_frame (frame_of_bits
              (flip_nth k (frame_bits (prepare_frame (Z.of_nat b)))))))
      (seq 0 11))
    (seq 0 256) = true.
Proof. vm_compute. reflexivity. Qed.

(** X13.  A corrupted byte dropped.  As before, but one of the eleven
    sampled bits, any one, is inverted.  Then the frame in FRAME is
    rejected by [check_frame], and in that cycle, whatever the inputs,
    nothing is written to the inbound FIFO and the receiver goes to
    IDLE-WAIT. *)
Theorem rx_drops_corrupted (s : state) (env : nat -> inputs) (t : nat)
    (b : Z) (k : nat) (i : inputs) :
  rx_state s = Rx.BIT -> rx_bitno s = 0 -> 0 <= b < 256 -> (k < 11)%nat ->
  sample (bus (state_at request_cyc s env t)) = true ->
  sampled request_cyc s env (S t) =
    flip_nth k (frame_bits (prepare_frame b)) ->
  let s1 := state_at request_cyc s env (S t) in
  rx_state s1 = Rx.FRAME /\
  check_frame (rx_frame s1) = false /\
  in_fifo_we (strobe request_cyc s1 i) = false /\
  rx_state (step request_cyc s1 i) = Rx.IDLE_WAIT.
Proof.
  intros Hst Hno Hb Hk Hsa Hbits s1.
  destruct (rx_frame_of_sampled s env t Hst Hno Hsa) as [F1 F2].
  { rewrite Hbits, length_flip_nth. apply length_frame_bits. }
  fold s1 in F1, F2.
  assert (Hbad : check_frame (rx_frame s1) = false).
  { rewrite F2, Hbits.
    pose proof flipped_frames_rejected as H.
    rewrite forallb_forall in H.
    pose proof (H (Z.to_nat b) ltac:(apply in_seq; lia)) as H1.
    cbv beta in H1. rewrite forallb_forall in H1.
    pose proof (H1 k ltac:(apply in_seq; lia)) as H2.
    cbv beta in H2. rewrite Z2Nat.id in H2 by lia.
    now apply negb_true_iff in H2. }
  split; [exact F1|]. split; [exact Hbad|].
  destruct (rx_frame_step request_cyc s1 i F1) as (_ & Hrej & _).
  exact (Hrej Hbad).
Qed.

(** ** Transmission, bit by bit *)

Lemma shifted_out_raw (f : frame) :
  raw_bits (set_raw_bits (slice (raw_bits f) 1 11)) = Z.shiftr (raw_bits f) 1.
Proof.
  apply Z.bits_inj'. intros n Hn.
  rewrite raw_bits_set_raw_bits, testbit_trunc, testbit_slice by lia.
  rewrite Z.shiftr_spec by lia.
  destruct (Z.ltb_spec n 11), (Z.ltb_spec n (11 - 1)); try lia;
    cbn [andb]; try reflexivity;
    symmetry; apply (testbit_above 11); try apply raw_bits_range; lia.
Qed.

Lemma tx_bit_step (s : state) (i : inputs) :
  tx_state s = Tx.BIT ->
  let s' := step request_cyc s i in
  clock_o (bus s') = clock_o (bus s) /\
  (setup (bus s) = false ->
     tx_state s' = Tx.BIT /\ tx_frame s' = tx_frame s /\
     tx_bitno s' = tx_bitno s /\ data_o (bus s') = data_o (bus s)) /\
  (setup (bus s) = true ->
     data_o (bus s') = Z.testbit (raw_bits (tx_frame s)) 0 /\
     raw_bits (tx_frame s') = Z.shiftr (raw_bits (tx_frame s)) 1 /\
     (tx_bitno s = 10 -> tx_state s' = Tx.ACK /\ tx_bitno s' = 0) /\
     (tx_bitno s <> 10 ->
        tx_state s' = Tx.BIT /\
        tx_bitno s' = trunc bitno_w (tx_bitno s + 1))).
Proof.
  destruct_state s. intros ->.
  destruct rs, se; step_cases;
    (split; [reflexivity|]); split; intros H; try discriminate H;
    rewrite <- ?slice_low_bit, <- ?shifted_out_raw;
    repeat split; congruence.
Qed.

(** After [n <= 10] setup pulses in BIT the frame has moved [n] places
    and the line carries the bit that left last. *)
Lemma tx_serial (s : state) (env : nat -> inputs) (t : nat) :
  tx_state s = Tx.BIT -> tx_bitno s = 0 ->
  let n := setups request_cyc s env t in
  let s' := state_at request_cyc s env t in
  (n <= 10)%nat ->
  tx_state s' = Tx.BIT /\ tx_bitno s' = Z.of_nat n /\
  raw_bits (tx_frame s') = Z.shiftr (raw_bits (tx_frame s)) (Z.of_nat n) /\
  clock_o (bus s') = clock_o (bus s) /\
  data_o (bus s') =
    match n with
    | O => data_o (bus s)
    | S m => Z.testbit (raw_bits (tx_frame s)) (Z.of_nat m)
    end.
Proof.
  intros Hst Hno. induction t as [|t IH]; cbn [setups state_at].
  - intros _. rewrite Z.shiftr_0_r. now repeat split.
  - cbv zeta in IH |- *.
    set (st := state_at request_cyc s env t) in *.
    set (n := setups request_cyc s env t) in *.
    intros Hlen. destruct IH as (I1 & I2 & I3 & I4 & I5); [lia|].
    destruct (tx_bit_step st (env t) I1) as (Hck & Hquiet & Hpulse).
    destruct (setup (bus st)).
    + destruct Hpulse as (P1 & P2 & _ & P4); [reflexivity|].
      destruct P4 as [P4 P5]; [lia|].
      rewrite P5, I2, bitno_succ by lia.
      replace (n + 1)%nat with (S n) by lia.
      split; [exact P4|]. split; [lia|].
      split; [|split; [congruence|]].
      * rewrite P2, I3, Z.shiftr_shiftr by lia. f_equal. lia.
      * rewrite P1, I3, Z.shiftr_spec by lia. f_equal.
    + destruct Hquiet as (Q1 & Q2 & Q3 & Q4); [reflexivity|].
      rewrite Nat.add_0_r, Q2, Q3, Q4.
      repeat split; congruence.
Qed.

(** X14.  Transmission, bit by bit.  The transmitter is in BIT with
    its counter at 0 and frame [f].  After [n] setup pulses, [n] up to
    10, it is still in BIT, the counter reads [n], the frame has moved
    [n] places down and the data line carries bit [n - 1] of [f] (with
    no pulse yet, what it carried before), so the bits go out lowest
    first.  The eleventh pulse puts bit 10 on the line, empties the
    frame, clears the counter and takes the transmitter to ACK.  The
    clock line is not touched. *)
Theorem tx_sends_frame_bits (s : state) (env : nat -> inputs) (t : nat) :
  tx_state s = Tx.BIT -> tx_bitno s = 0 ->
  let at_ := fun k => state_at request_cyc s env k in
  let n := setups request_cyc s env t in
  ((n <= 10)%nat ->
     tx_state (at_ t) = Tx.BIT /\ tx_bitno (at_ t) = Z.of_nat n /\
     data_o (bus (at_ t)) =
       match n with
       | O => data_o (bus s)
       | S m => Z.testbit (raw_bits (tx_frame s)) (Z.of_nat m)
       end /\
     raw_bits (tx_frame (at_ t)) =
       Z.shiftr (raw_bits (tx_frame s)) (Z.of_nat n) /\
     clock_o (bus (at_ t)) = clock_o (bus s)) /\
  (n = 10%nat -> setup (bus (at_ t)) = true ->
     tx_state (at_ (S t)) = Tx.ACK /\ tx_bitno (at_ (S t)) = 0 /\
     data_o (bus (at_ (S t))) = Z.testbit (raw_bits (tx_frame s)) 10 /\
     raw_bits (tx_frame (at_ (S t))) = 0 /\
     clock_o (bus (at_ (S t))) = clock_o (bus s)).
Proof.
  intros Hst Hno at_ n. split.
  - intros Hn.
    destruct (tx_serial s env t Hst Hno) as (I1 & I2 & I3 & I4 & I5); [lia|].
    fold n in I2, I3, I5. fold (at_ t) in I1, I2, I3, I4, I5.
    repeat split; assumption.
  - intros Hn Hse.
    destruct (tx_serial s env t Hst Hno) as (I1 & I2 & I3 & I4 & _); [lia|].
    fold n in I2, I3. fold (at_ t) in I1, I2, I3, I4.
    unfold at_ in *. cbn [state_at].
    destruct (tx_bit_step _ (env t) I1) as (Hck & _ & Hpulse).
    destruct (Hpulse Hse) as (P1 & P2 & P3 & _).
    destruct P3 as [P3 P4]; [lia|].
    split; [exact P3|]. split; [exact P4|].
    split; [|split; [|congruence]].
    + rewrite P1, I3, Hn, Z.shiftr_spec by lia. reflexivity.
    + rewrite P2, I3, Hn, Z.shiftr_shiftr by lia.
      rewrite Z.shiftr_div_pow2 by lia.
      apply Z.div_small. apply raw_bits_range.
Qed.

Lemma prepared_bit (b k : Z) :
  0 <= b < 256 -> 0 <= k < 11 ->
  Z.testbit (raw_bits (prepare_frame b)) k =
  if k =? 0 then false
  else if k <? 9 then Z.testbit b (k - 1)
  else if k =? 9 then negb (xor_reduction b)
  else true.
Proof.
  intros Hb Hk. rewrite testbit_raw_bits by lia.
  unfold prepare_frame; cbn [start data parity stop].
  rewrite parity_expr.
  destruct (Z.eqb_spec k 0), (Z.ltb_spec k 1); try lia;
    [now rewrite Z.testbit_0_l|].
  destruct (Z.ltb_spec k 9).
  - rewrite trunc_small by (cbn; lia). reflexivity.
  - destruct (Z.eqb_spec k 9), (Z.ltb_spec k 10); try lia.
    + replace (k - 9) with 0 by lia. apply Z.b2z_bit0.
    + destruct (Z.ltb_spec k 11); [|lia].
      replace (k - 10) with 0 by lia. reflexivity.
Qed.

(** X15.  The byte on the wire.  The transmitter is in BIT with its
    counter at 0 and the prepared frame of a byte [b].  After the first
    setup pulse the data line is low (the start bit); after pulse
    [2 + j] it carries bit [j] of [b], for [j] from 0 to 7, least
    significant bit first; after the tenth it carries the odd-parity
    bit of [b]; the eleventh releases it (the stop bit) and the
    transmitter is in ACK. *)
Theorem tx_wire_bits (s : state) (env : nat -> inputs) (t : nat) (b : Z) :
  tx_state s = Tx.BIT -> tx_bitno s = 0 ->
  tx_frame s = prepare_frame b -> 0 <= b < 256 ->
  let at_ := fun k => state_at request_cyc s env k in
  let n := setups request_cyc s env t in
  (n = 1%nat -> data_o (bus (at_ t)) = false) /\
  (forall j, (j < 8)%nat -> n = (2 + j)%nat ->
     data_o (bus (at_ t)) = Z.testbit b (Z.of_nat j)) /\
  (n = 10%nat -> data_o (bus (at_ t)) = negb (xor_reduction b)) /\
  (n = 10%nat -> setup (bus (at_ t)) = true ->
     data_o (bus (at_ (S t))) = true /\ tx_state (at_ (S t)) = Tx.ACK).
Proof.
  intros Hst Hno Hfr Hb at_ n.
  assert (Hline : forall m, n = S m -> (m < 10)%nat ->
            data_o (bus (at_ t)) =
            Z.testbit (raw_bits (prepare_frame b)) (Z.of_nat m)).
  { intros m Hn Hm.
    destruct (tx_serial s env t Hst Hno) as (_ & _ & _ & _ & I5);
      [fold n; lia|].
    fold n in I5. fold (at_ t) in I5. rewrite I5, Hn, Hfr. reflexivity. }
  split; [|split; [|split]].
  - intros Hn. rewrite (Hline 0%nat) by lia.
    now rewrite prepared_bit by lia.
  - intros j Hj Hn. rewrite (Hline (S j)) by lia.
    rewrite prepared_bit by lia.
    destruct (Z.eqb_spec (Z.of_nat (S j)) 0); [lia|].
    destruct (Z.ltb_spec (Z.of_nat (S j)) 9); [|lia].
    f_equal. lia.
  - intros Hn. rewrite (Hline 9%nat) by lia.
    now rewrite prepared_bit by lia.
  - intros Hn Hse.
    destruct (tx_serial s env t Hst Hno) as (I1 & I2 & I3 & _);
      [fold n; lia|].
    fold n in I2, I3. fold (at_ t) in I1, I2, I3.
    unfold at_ in *. cbn [state_at].
    destruct (tx_bit_step _ (env t) I1) as (_ & _ & Hpulse).
    destruct (Hpulse Hse) as (P1 & _ & P3 & _).
    destruct P3 as [P3 _]; [lia|].
    split; [|exact P3].
    rewrite P1, I3, Hn, Z.shiftr_spec, Hfr by lia.
    now rewrite prepared_bit by lia.
Qed.

(** ** After the ACK state *)




End Further.

(** ** The further properties at concrete states *)

Lemma frame_raw_bits_round_trip_witness :
  let f := prepare_frame 0xF4 in
  wf_frame f /\ raw_bits f = 1512 /\ set_raw_bits 1512 = f.
Proof.
  cbv zeta.
  assert (Hf : wf_frame (prepare_frame 0xF4)) by apply wf_prepare_frame.
  destruct (frame_raw_bits_round_trip (prepare_frame 0xF4) 0 Hf) as (H & _).
  split; [exact Hf|]. split; [by_run|].
  replace 1512 with (raw_bits (prepare_frame 0xF4)) by by_run. exact H.
Defined.

Lemma valid_frame_is_prepared_witness :
  let f := Frame 0 0xF4 0 1 in
  wf_frame f /\ check_frame f = true /\ f = prepare_frame 0xF4.
Proof.
  cbv zeta.
  assert (Hf : wf_frame (Frame 0 0xF4 0 1))
    by (unfold wf_frame; cbn; lia).
  assert (Hok : check_frame (Frame 0 0xF4 0 1) = true) by by_run.
  split; [exact Hf|]. split; [exact Hok|].
  exact (proj1 (valid_frame_is_prepared (Frame 0 0xF4 0 1) Hf) Hok).
Defined.

Lemma check_frame_odd_ones_witness :
  let f := Frame 0 0xF4 0 1 in
  wf_frame f /\ ones (data f) + parity f = 5 /\ check_frame f = true.
Proof.
  cbv zeta.
  assert (Hf : wf_frame (Frame 0 0xF4 0 1))
    by (unfold wf_frame; cbn; lia).
  split; [exact Hf|]. split; [by_run|].
  refine (proj2 (check_frame_odd_ones (Frame 0 0xF4 0 1) Hf eq_refl eq_refl) _).
  by_run.
Defined.

Lemma single_bit_error_detected_witness :
  let f := Frame 0 0xF4 0 1 in
  wf_frame f /\ check_frame f = true /\
  check_frame (set_raw_bits (Z.lxor (raw_bits f) (Z.shiftl 1 4))) = false.
Proof.
  cbv zeta.
  assert (Hf : wf_frame (Frame 0 0xF4 0 1))
    by (unfold wf_frame; cbn; lia).
  assert (Hok : check_frame (Frame 0 0xF4 0 1) = true) by by_run.
  split; [exact Hf|]. split; [exact Hok|].
  exact (single_bit_error_detected (Frame 0 0xF4 0 1) 4 Hf Hok
           ltac:(lia)).
Defined.

Lemma registers_in_range_witness :
  let s := after 3 40 (host_sends sending true) in
  reachable 3 s /\ tx_state s = Tx.BIT /\ 0 <= tx_bitno s <= 10.
Proof.
  cbv zeta. split; [apply reachable_after|]. split; [by_run|].
  destruct (registers_in_range 3 _
              (reachable_after 3 40 (host_sends sending true)))
    as (_ & H & _).
  exact H.
Defined.

Lemma lines_follow_transmitter_witness :
  let s := after 3 2 (host_sends sending true) in
  reachable 3 s /\ tx_state s = Tx.REQUEST /\ clock_o (bus s) = false.
Proof.
  cbv zeta. split; [apply reachable_after|].
  assert (Hst : tx_state (after 3 2 (host_sends sending true)) = Tx.REQUEST)
    by by_run.
  split; [exact Hst|].
  destruct (lines_follow_transmitter 3 _
              (reachable_after 3 2 (host_sends sending true)))
    as (H & _).
  exact (proj2 H Hst).
Defined.

Lemma in_fifo_write_discipline_witness :
  let s := after 3 89 (device_sends quiet 0xF4) in
  reachable 3 s /\ in_fifo_we (strobe 3 s quiet) = true /\
  in_fifo_din (strobe 3 s quiet) = data (rx_frame s) /\
  rx_state (step 3 s quiet) = Rx.IDLE_WAIT /\
  in_fifo_we (strobe 3 (step 3 s quiet) quiet) = false.
Proof.
  cbv zeta.
  assert (Hwe : in_fifo_we (strobe 3 (after 3 89 (device_sends quiet 0xF4))
                              quiet) = true) by by_run.
  destruct (in_fifo_write_discipline 3 _ quiet quiet
              (reachable_after 3 89 (device_sends quiet 0xF4)) Hwe)
    as (_ & _ & _ & Hd & _ & Hn & Hz).
  split; [apply reachable_after|]. split; [exact Hwe|].
  split; [exact Hd|]. split; [exact Hn | exact Hz].
Defined.

Lemma out_fifo_read_discipline_witness :
  let s := after 3 92 (host_sends sending true) in
  out_fifo_re (strobe 3 s sending) = true /\ tx_state s = Tx.ACK /\
  out_fifo_re (strobe 3 (step 3 s sending) sending) = false.
Proof.
  cbv zeta.
  assert (Hre : out_fifo_re (strobe 3 (after 3 92 (host_sends sending true))
                               sending) = true) by by_run.
  destruct (out_fifo_read_discipline 3 _ sending sending Hre)
    as (Hst & _ & _ & _ & Hz).
  split; [exact Hre|]. split; [exact Hst | exact Hz].
Defined.

Lemma idle_wait_release_witness :
  let s := after 3 93 (host_sends sending true) in
  let env := from (skipn 93 (host_sends sending true)) in
  tx_state s = Tx.IDLE_WAIT /\
  tx_state (state_at 3 s env 1) = Tx.IDLE_WAIT /\
  tx_state (state_at 3 s env 2) = Tx.IDLE.
Proof.
  cbv zeta.
  assert (Hst : tx_state (after 3 93 (host_sends sending true)) = Tx.IDLE_WAIT)
    by by_run.
  destruct (idle_wait_release 3 (after 3 93 (host_sends sending true))
              (from (skipn 93 (host_sends sending true))) 1) as [_ Htx].
  { intros [|t] Ht; [by_run | lia]. }
  { by_run. }
  destruct (Htx Hst) as [Hstay Hgo].
  split; [exact Hst|]. split; [exact (Hstay 1%nat (le_n 1)) | exact Hgo].
Defined.

Lemma request_in_detail_witness :
  let at_ := fun t => state_at 5 reset (fun _ => sending) t in
  tx_timer (at_ 1%nat) = 4 /\ tx_timer (at_ 5%nat) = 0 /\
  tx_timer (at_ 6%nat) = 7 /\ tx_frame (at_ 6%nat) = prepare_frame 0xF4.
Proof.
  cbv zeta.
  pose proof (request_in_detail 5 reset (fun _ => sending)
                ltac:(lia) (reach_reset 5)
                eq_refl eq_refl eq_refl eq_refl)
    as (Hk & _ & _ & Hfr & _ & _ & Hwrap).
  cbv zeta in Hk, Hfr, Hwrap.
  change (Z.to_nat 5) with 5%nat in Hk, Hfr, Hwrap.
  split; [exact (Hk 1%nat ltac:(lia))|].
  split; [exact (Hk 5%nat ltac:(lia))|].
  split; [exact Hwrap | exact Hfr].
Defined.

Lemma rx_delivers_byte_witness :
  let s := after 3 7 (device_sends quiet 0xF4) in
  let env := from (skipn 7 (device_sends quiet 0xF4)) in
  rx_state s = Rx.BIT /\
  rx_frame (state_at 3 s env 82) = prepare_frame 0xF4 /\
  in_fifo_we (strobe 3 (state_at 3 s env 82) (env 82%nat)) = true /\
  in_fifo_din (strobe 3 (state_at 3 s env 82) (env 82%nat)) = 0xF4.
Proof.
  cbv zeta.
  assert (Hst : rx_state (after 3 7 (device_sends quiet 0xF4)) = Rx.BIT)
    by by_run.
  assert (Hno : rx_bitno (after 3 7 (device_sends quiet 0xF4)) = 0)
    by by_run.
  assert (Hsa : sample (bus (state_at 3 (after 3 7 (device_sends quiet 0xF4))
                  (from (skipn 7 (device_sends quiet 0xF4))) 81)) = true)
    by by_run.
  assert (Hbits : sampled 3 (after 3 7 (device_sends quiet 0xF4))
                    (from (skipn 7 (device_sends quiet 0xF4))) 82 =
                  frame_bits (prepare_frame 0xF4)) by by_run.
  destruct (rx_delivers_byte 3 _ _ 81 0xF4 Hst Hno ltac:(lia) Hsa Hbits)
    as (_ & Hfr & Hw).
  destruct Hw as (W1 & W2 & _); [by_run|].
  split; [exact Hst|]. split; [exact Hfr|]. split; [exact W1 | exact W2].
Defined.

Lemma rx_drops_corrupted_witness :
  let ins := device_sends_bits quiet
               (flip_nth 3 (frame_bits (prepare_frame 0xF4))) in
  let s := after 3 7 ins in
  let env := from (skipn 7 ins) in
  rx_state s = Rx.BIT /\
  check_frame (rx_frame (state_at 3 s env 82)) = false /\
  in_fifo_we (strobe 3 (state_at 3 s env 82) quiet) = false /\
  rx_state (step 3 (state_at 3 s env 82) quiet) = Rx.IDLE_WAIT.
Proof.
  cbv zeta.
  set (ins := device_sends_bits quiet
                (flip_nth 3 (frame_bits (prepare_frame 0xF4)))).
  assert (Hst : rx_state (after 3 7 ins) = Rx.BIT) by by_run.
  assert (Hno : rx_bitno (after 3 7 ins) = 0) by by_run.
  assert (Hsa : sample (bus (state_at 3 (after 3 7 ins)
                  (from (skipn 7 ins)) 81)) = true) by by_run.
  assert (Hbits : sampled 3 (after 3 7 ins) (from (skipn 7 ins)) 82 =
                  flip_nth 3 (frame_bits (prepare_frame 0xF4))) by by_run.
  destruct (rx_drops_corrupted 3 _ _ 81 0xF4 3 quiet Hst Hno
              ltac:(lia) ltac:(lia) Hsa Hbits) as (_ & Hbad & Hwe & Hn).
  split; [exact Hst|]. split; [exact Hbad|]. split; [exact Hwe | exact Hn].
Defined.

Lemma tx_sends_frame_bits_witness :
  let s := after 3 4 (host_sends sending true) in
  let env := from (skipn 4 (host_sends sending true)) in
  tx_state s = Tx.BIT /\ tx_bitno s = 0 /\
  setups 3 s env 84 = 10%nat /\
  tx_state (state_at 3 s env 85) = Tx.ACK /\
  raw_bits (tx_frame (state_at 3 s env 85)) = 0.
Proof.
  cbv zeta.
  assert (Hst : tx_state (after 3 4 (host_sends sending true)) = Tx.BIT)
    by by_run.
  assert (Hno : tx_bitno (after 3 4 (host_sends sending true)) = 0)
    by by_run.
  assert (Hn : setups 3 (after 3 4 (host_sends sending true))
                 (from (skipn 4 (host_sends sending true))) 84 = 10%nat)
    by by_run.
  destruct (tx_sends_frame_bits 3 _
              (from (skipn 4 (host_sends sending true))) 84 Hst Hno)
    as [_ Hlast].
  destruct (Hlast Hn) as (A1 & _ & _ & A4 & _); [by_run|].
  split; [exact Hst|]. split; [exact Hno|]. split; [exact Hn|].
  split; [exact A1 | exact A4].
Defined.

Lemma tx_wire_bits_witness :
  let s := after 3 4 (host_sends sending true) in
  let env := from (skipn 4 (host_sends sending true)) in
  tx_frame s = prepare_frame 0xF4 /\
  setups 3 s env 29 = 4%nat /\
  data_o (bus (state_at 3 s env 29)) = Z.testbit 0xF4 2.
Proof.
  cbv zeta.
  assert (Hst : tx_state (after 3 4 (host_sends sending true)) = Tx.BIT)
    by by_run.
  assert (Hno : tx_bitno (after 3 4 (host_sends sending true)) = 0)
    by by_run.
  assert (Hfr : tx_frame (after 3 4 (host_sends sending true)) =
                prepare_frame 0xF4) by by_run.
  assert (Hn : setups 3 (after 3 4 (host_sends sending true))
                 (from (skipn 4 (host_sends sending true))) 29 = 4%nat)
    by by_run.
  destruct (tx_wire_bits 3 _ (from (skipn 4 (host_sends sending true))) 29
              0xF4 Hst Hno Hfr ltac:(lia)) as (_ & Hdata & _).
  split; [exact Hfr|]. split; [exact Hn|].
  exact (Hdata 2%nat ltac:(lia) Hn).
Defined.


